(** * LinkedConnect campaign engine: contact reconciliation and fan-out

    A shallow embedding of [src/config.py] and [src/linkedin_campaign_sync.py].

    The Python code is dynamically typed: every value that crosses an adapter
    boundary is a [Dict[str, Any]], and the orchestration code subscripts and
    calls [.get] on whatever it receives.  The embedding therefore carries a
    small universe of Python values ([pyval]) together with the exceptions the
    used operations raise, a state-and-exception monad in which adapter calls
    are recorded, and the five adapters both as an abstract interface (what
    [process_person] is written against) and as the concrete classes of the
    source with their [mock] flag. *)

From Stdlib Require Import String Ascii List Bool ZArith DecimalString Lia.
Import ListNotations.
Open Scope string_scope.
Open Scope list_scope.

(** ** Python values

    Strings are sequences of bytes; on ASCII text their length, characters and
    substrings are those of Python's [str]. *)

Module Py.

(** The exceptions raised by the operations the source uses. *)
Inductive exn : Type :=
| TypeError
| KeyError
| AttributeError
| IndexError.

Inductive result (A : Type) : Type :=
| Ok (a : A)
| Raise (e : exn).
Arguments Ok {A} a.
Arguments Raise {A} e.

Set Warnings "-register-all".

(** A [dict] keeps its items in insertion order; keys are strings, as in
    every dictionary of the source. *)
Inductive pyval : Type :=
| PNone
| PBool (b : bool)
| PInt (n : Z)
| PStr (s : string)
| PList (l : list pyval)
| PDict (d : list (string * pyval)).

Definition items := list (string * pyval).

(** [bool(v)]: the truth value used by [if], [not], [or]. *)
Definition truthy (v : pyval) : bool :=
  match v with
  | PNone => false
  | PBool b => b
  | PInt n => negb (n =? 0)%Z
  | PStr s => negb (s =? "")
  | PList l => match l with [] => false | _ :: _ => true end
  | PDict d => match d with [] => false | _ :: _ => true end
  end.

(** [a or b] *)
Definition py_or (a b : pyval) : pyval := if truthy a then a else b.

Fixpoint lookup (k : string) (d : items) : option pyval :=
  match d with
  | [] => None
  | (k', v) :: d' => if k' =? k then Some v else lookup k d'
  end.

(** [v.get(k, dflt)]; only dictionaries have the method. *)
Definition get_default (v : pyval) (k : string) (dflt : pyval) : result pyval :=
  match v with
  | PDict d => Ok (match lookup k d with Some x => x | None => dflt end)
  | _ => Raise AttributeError
  end.

(** [v.get(k)] *)
Definition get (v : pyval) (k : string) : result pyval := get_default v k PNone.

(** [v[0]].  A string yields its first character; a dictionary has string
    keys only, so the integer key is missing. *)
Definition index0 (v : pyval) : result pyval :=
  match v with
  | PList (x :: _) => Ok x
  | PList [] => Raise IndexError
  | PStr (String c _) => Ok (PStr (String c EmptyString))
  | PStr EmptyString => Raise IndexError
  | PDict _ => Raise KeyError
  | PNone | PBool _ | PInt _ => Raise TypeError
  end.

(** [v[k]] for a string key [k]. *)
Definition getitem (v : pyval) (k : string) : result pyval :=
  match v with
  | PDict d => match lookup k d with Some x => Ok x | None => Raise KeyError end
  | _ => Raise TypeError
  end.

(** [len(v)] *)
Definition len (v : pyval) : result Z :=
  match v with
  | PList l => Ok (Z.of_nat (List.length l))
  | PStr s => Ok (Z.of_nat (String.length s))
  | PDict d => Ok (Z.of_nat (List.length d))
  | PNone | PBool _ | PInt _ => Raise TypeError
  end.

Fixpoint chars (s : string) : list pyval :=
  match s with
  | EmptyString => []
  | String c s' => PStr (String c EmptyString) :: chars s'
  end.

(** The elements [for p in v] visits. *)
Definition iter (v : pyval) : result (list pyval) :=
  match v with
  | PList l => Ok l
  | PStr s => Ok (chars s)
  | PDict d => Ok (map (fun kv => PStr (fst kv)) d)
  | PNone | PBool _ | PInt _ => Raise TypeError
  end.

Fixpoint prefix (p s : string) : bool :=
  match p, s with
  | EmptyString, _ => true
  | String a p', String b s' => Ascii.eqb a b && prefix p' s'
  | String _ _, EmptyString => false
  end.

(** [p in s] for two strings. *)
Fixpoint substring_of (p s : string) : bool :=
  prefix p s ||
  match s with
  | EmptyString => false
  | String _ s' => substring_of p s'
  end.

Definition is_str (k : string) (v : pyval) : bool :=
  match v with
  | PStr s => s =? k
  | _ => false
  end.

(** [k in v] for a string [k]: substring test on a string, membership on a
    list, key test on a dictionary. *)
Definition contains (k : string) (v : pyval) : result bool :=
  match v with
  | PStr s => Ok (substring_of k s)
  | PList l => Ok (existsb (is_str k) l)
  | PDict d => Ok (match lookup k d with Some _ => true | None => false end)
  | PNone | PBool _ | PInt _ => Raise TypeError
  end.

(** [v.lower()], given the case mapping of strings. *)
Definition lower_method (lower : string -> string) (v : pyval) : result pyval :=
  match v with
  | PStr s => Ok (PStr (lower s))
  | _ => Raise AttributeError
  end.

Definition keys (v : pyval) : list string :=
  match v with
  | PDict d => map fst d
  | _ => []
  end.

End Py.
Import Py.

(** ** Effects: state passing with exceptions *)

(** A computation over a state [S] either returns a value or raises; the
    state reached is kept in both cases. *)
Definition M (S A : Type) : Type := S -> result A * S.

Definition ret {S A} (a : A) : M S A := fun s => (Ok a, s).

Definition bind {S A B} (m : M S A) (k : A -> M S B) : M S B :=
  fun s =>
    match m s with
    | (Ok a, s') => k a s'
    | (Raise e, s') => (Raise e, s')
    end.

Definition lift {S A} (r : result A) : M S A := fun s => (r, s).

Definition modify {S} (f : S -> S) : M S unit := fun s => (Ok tt, f s).

Declare Scope eff_scope.
Delimit Scope eff_scope with eff.
Notation "x <- m ;; k" := (bind m (fun x => k))
  (at level 61, m at next level, right associativity) : eff_scope.
Notation "m ;; k" := (bind m (fun _ => k))
  (at level 61, right associativity) : eff_scope.
Open Scope eff_scope.

Fixpoint for_each {S A} (xs : list A) (body : A -> M S unit) : M S unit :=
  match xs with
  | [] => ret tt
  | x :: xs' => body x ;; for_each xs' body
  end.

(** ** Logging *)

Inductive level : Type := INFO | WARNING.

(** A log record: the level, the text of the f-string with [{}] for each
    interpolated expression, and the interpolated values. *)
Definition log_record : Type := level * string * list pyval.

(** The world the program runs in receives its log records. *)
Class Logging (W : Type) : Type :=
  emit : log_record -> W -> W.

Definition log_info {W} `{Logging W} (text : string) (args : list pyval) : M W unit :=
  modify (emit (INFO, text, args)).

Definition log_warning {W} `{Logging W} (text : string) (args : list pyval) : M W unit :=
  modify (emit (WARNING, text, args)).

#[export] Instance log_list : Logging (list log_record) :=
  fun r w => w ++ [r].

(** ** Configuration ([src/config.py]) *)

Module Config.

Record t : Type := {
  PHANTOMBUSTER_API_KEY : string;
  DROPCONTACT_API_KEY : string;
  AIRTABLE_API_KEY : string;
  AIRTABLE_BASE_ID : string;
  AIRTABLE_TABLE : string;
  LEMLIST_API_KEY : string;
  HUBSPOT_API_KEY : string;
  mock : bool
}.

(** The process environment, after [load_dotenv()] has merged the [.env]
    file into it. *)
Definition environ : Type := string -> option string.

(** [os.getenv(name, dflt)] *)
Definition getenv (env : environ) (name dflt : string) : string :=
  match env name with
  | Some v => v
  | None => dflt
  end.

(** [a and b] *)
Definition py_and (a b : pyval) : pyval := if truthy a then b else a.

Definition load_from_env (env : environ) : t :=
  let ph := getenv env "PHANTOMBUSTER_API_KEY" "" in
  let dc := getenv env "DROPCONTACT_API_KEY" "" in
  let at_ := getenv env "AIRTABLE_API_KEY" "" in
  let at_base := getenv env "AIRTABLE_BASE_ID" "" in
  let at_table := getenv env "AIRTABLE_TABLE" "Contacts" in
  let le := getenv env "LEMLIST_API_KEY" "" in
  let hs := getenv env "HUBSPOT_API_KEY" "" in
  let mock :=
    negb (truthy
      (py_and (py_and (py_and (py_and (py_and
         (PStr ph) (PStr dc)) (PStr at_)) (PStr at_base)) (PStr le)) (PStr hs))) in
  {| PHANTOMBUSTER_API_KEY := ph;
     DROPCONTACT_API_KEY := dc;
     AIRTABLE_API_KEY := at_;
     AIRTABLE_BASE_ID := at_base;
     AIRTABLE_TABLE := at_table;
     LEMLIST_API_KEY := le;
     HUBSPOT_API_KEY := hs;
     mock := mock |}.

(** The variables whose absence switches the program to mock mode. *)
Definition required : list string :=
  [ "PHANTOMBUSTER_API_KEY"; "DROPCONTACT_API_KEY"; "AIRTABLE_API_KEY";
    "AIRTABLE_BASE_ID"; "LEMLIST_API_KEY"; "HUBSPOT_API_KEY" ].

(** A variable is provided when it is set to a non-empty string. *)
Definition provided (env : environ) (name : string) : bool :=
  match env name with
  | Some v => negb (v =? "")
  | None => false
  end.

End Config.

(** ** The adapters' interface

    [process_person] and [run_cycle] only call methods on the objects they
    are handed, so any objects with these methods will do.  A method is a
    computation over the world [W] (the remote systems and the log). *)

Module Iface.
Section Interface.
Context {W : Type}.

Record Phantombuster : Type := {
  fetch_post_commenters : M W pyval;
  fetch_post_likers : M W pyval;
  trigger_next_phantom : M W pyval
}.

Record Dropcontact : Type := {
  enrich : pyval -> M W pyval
}.

Record Airtable : Type := {
  list_records_matching_email : pyval -> M W pyval;
  create_record : pyval -> M W pyval;
  update_record : pyval -> pyval -> M W pyval
}.

Record Lemlist : Type := {
  add_lead : pyval -> M W pyval
}.

Record Hubspot : Type := {
  upsert_contact : pyval -> M W pyval
}.

(** The [clients] dictionary built in [main]. *)
Record Clients : Type := {
  phantombuster : Phantombuster;
  dropcontact : Dropcontact;
  airtable : Airtable;
  lemlist : Lemlist;
  hubspot : Hubspot
}.
End Interface.
Arguments Phantombuster W : clear implicits.
Arguments Dropcontact W : clear implicits.
Arguments Airtable W : clear implicits.
Arguments Lemlist W : clear implicits.
Arguments Hubspot W : clear implicits.
Arguments Clients W : clear implicits.
End Iface.
Import Iface.

(** ** The service wrappers of the source *)

(** Two functions of the Python runtime are taken as given: the case mapping
    [str.lower] and the text [str(v)] of a value that is not a string. *)
Record Runtime : Type := {
  lower : string -> string;
  render : pyval -> string
}.

(** An interpolation [{v}] inside an f-string. *)
Definition format (rt : Runtime) (v : pyval) : string :=
  match v with
  | PStr s => s
  | _ => render rt v
  end.

Definition not_implemented (service : string) : string :=
  (service ++ " Real mode not implemented — please add API logic here.")%string.

Module PhantombusterClient.
Section Methods.
Context {W : Type} `{Logging W}.

Record t : Type := { api_key : string; mock : bool }.

Definition init (cfg : Config.t) : t :=
  {| api_key := Config.PHANTOMBUSTER_API_KEY cfg; mock := Config.mock cfg |}.

Definition fetch_post_commenters (self : t) : M W pyval :=
  if mock self then
    log_info "[Phantombuster] Using mock commenters data" [] ;;
    ret (PList
      [ PDict [ ("first_name", PStr "Ada"); ("last_name", PStr "Lovelace");
                ("profile_url", PStr "https://linkedin.example/ada") ];
        PDict [ ("first_name", PStr "Alan"); ("last_name", PStr "Turing");
                ("profile_url", PStr "https://linkedin.example/alan") ] ])
  else
    log_info (not_implemented "[Phantombuster]") [] ;;
    ret (PList []).

Definition fetch_post_likers (self : t) : M W pyval :=
  if mock self then
    log_info "[Phantombuster] Using mock likers data" [] ;;
    ret (PList
      [ PDict [ ("first_name", PStr "Grace"); ("last_name", PStr "Hopper");
                ("profile_url", PStr "https://linkedin.example/grace") ] ])
  else
    log_info (not_implemented "[Phantombuster]") [] ;;
    ret (PList []).

Definition trigger_next_phantom (self : t) : M W pyval :=
  if mock self then
    log_info "[Phantombuster] Mock trigger of next phantom" [] ;;
    ret (PBool true)
  else
    log_info "[Phantombuster] Real trigger not implemented" [] ;;
    ret (PBool false).

Definition client (self : t) : Phantombuster W :=
  {| Iface.fetch_post_commenters := fetch_post_commenters self;
     Iface.fetch_post_likers := fetch_post_likers self;
     Iface.trigger_next_phantom := trigger_next_phantom self |}.
End Methods.
End PhantombusterClient.

Module DropcontactClient.
Section Methods.
Context {W : Type} `{Logging W}.
Variable rt : Runtime.

Record t : Type := { api_key : string; mock : bool }.

Definition init (cfg : Config.t) : t :=
  {| api_key := Config.DROPCONTACT_API_KEY cfg; mock := Config.mock cfg |}.

Definition enrich (self : t) (person : pyval) : M W pyval :=
  if mock self then
    first <- lift (get_default person "first_name" (PStr "")) ;;
    lowered <- lift (lower_method (lower rt) first) ;;
    let email := PStr (format rt lowered ++ "@example.com")%string in
    first' <- lift (get_default person "first_name" (PStr "")) ;;
    last' <- lift (get_default person "last_name" (PStr "")) ;;
    first_name <- lift (get person "first_name") ;;
    last_name <- lift (get person "last_name") ;;
    profile_url <- lift (get person "profile_url") ;;
    ret (PDict
      [ ("full_name", PStr (format rt first' ++ " " ++ format rt last')%string);
        ("first_name", first_name);
        ("last_name", last_name);
        ("email", PList [PDict [("email", email)]]);
        ("phone", PStr "");
        ("linkedin", profile_url);
        ("company", PStr "Example Ltd");
        ("website", PStr "https://example.com") ])
  else
    log_info (not_implemented "[Dropcontact]") [] ;;
    ret (PDict []).

Definition client (self : t) : Dropcontact W :=
  {| Iface.enrich := enrich self |}.
End Methods.
End DropcontactClient.

Module AirtableClient.
Section Methods.
Context {W : Type} `{Logging W}.

Record t : Type := {
  api_key : string;
  base_id : string;
  table : pyval;
  mock : bool
}.

Definition init (cfg : Config.t) : t :=
  {| api_key := Config.AIRTABLE_API_KEY cfg;
     base_id := Config.AIRTABLE_BASE_ID cfg;
     table := py_or (PStr (Config.AIRTABLE_TABLE cfg)) (PStr "Contacts");
     mock := Config.mock cfg |}.

Definition list_records_matching_email (self : t) (email : pyval) : M W pyval :=
  if mock self then
    log_info "[Airtable] Mock search for {}" [email] ;;
    is_new <- lift (contains "new" email) ;;
    if (is_new : bool) then ret (PList [])
    else ret (PList [PDict [("id", PStr "rec123");
                             ("fields", PDict [("Email", email)])]])
  else
    log_info (not_implemented "[Airtable]") [] ;;
    ret (PList []).

Definition create_record (self : t) (fields : pyval) : M W pyval :=
  if mock self then
    log_info "[Airtable] Mock create: {}" [fields] ;;
    ret (PDict [("id", PStr "rec_new"); ("fields", fields)])
  else
    log_info (not_implemented "[Airtable]") [] ;;
    ret (PDict []).

Definition update_record (self : t) (record_id fields : pyval) : M W pyval :=
  if mock self then
    log_info "[Airtable] Mock update {}: {}" [record_id; fields] ;;
    ret (PDict [("id", record_id); ("fields", fields)])
  else
    log_info (not_implemented "[Airtable]") [] ;;
    ret (PDict []).

Definition client (self : t) : Airtable W :=
  {| Iface.list_records_matching_email := list_records_matching_email self;
     Iface.create_record := create_record self;
     Iface.update_record := update_record self |}.
End Methods.
End AirtableClient.

Module LemlistClient.
Section Methods.
Context {W : Type} `{Logging W}.

Record t : Type := { api_key : string; mock : bool }.

Definition init (cfg : Config.t) : t :=
  {| api_key := Config.LEMLIST_API_KEY cfg; mock := Config.mock cfg |}.

Definition add_lead (self : t) (lead : pyval) : M W pyval :=
  if mock self then
    email <- lift (get lead "email") ;;
    log_info "[Lemlist] Mock add lead {}" [email] ;;
    ret (PBool true)
  else
    log_info (not_implemented "[Lemlist]") [] ;;
    ret (PBool false).

Definition client (self : t) : Lemlist W :=
  {| Iface.add_lead := add_lead self |}.
End Methods.
End LemlistClient.

Module HubspotClient.
Section Methods.
Context {W : Type} `{Logging W}.

Record t : Type := { api_key : string; mock : bool }.

Definition init (cfg : Config.t) : t :=
  {| api_key := Config.HUBSPOT_API_KEY cfg; mock := Config.mock cfg |}.

Definition upsert_contact (self : t) (contact : pyval) : M W pyval :=
  if mock self then
    email <- lift (get contact "email") ;;
    log_info "[HubSpot] Mock upsert contact {}" [email] ;;
    ret (PBool true)
  else
    log_info (not_implemented "[HubSpot]") [] ;;
    ret (PBool false).

Definition client (self : t) : Hubspot W :=
  {| Iface.upsert_contact := upsert_contact self |}.
End Methods.
End HubspotClient.

(** ** Main orchestration *)

(** The calls the orchestration makes on its collaborators, with their
    arguments; the sequence of them is what a run can be observed to do. *)
Inductive call : Type :=
| FetchPostCommenters
| FetchPostLikers
| TriggerNextPhantom
| Enrich (person : pyval)
| ListRecordsMatchingEmail (email : pyval)
| CreateRecord (fields : pyval)
| UpdateRecord (record_id fields : pyval)
| AddLead (lead : pyval)
| UpsertContact (contact : pyval)
| Sleep (seconds : Z).

Record state (W : Type) : Type := {
  world : W;
  calls : list call
}.
Arguments world {W} s.
Arguments calls {W} s.
Arguments Build_state {W} world calls.

Section Orchestration.
Context {W : Type} `{Logging W}.

(** A method call on a client: it is recorded, then it runs on the world. *)
Definition invoke {A} (c : call) (m : M W A) : M (state W) A :=
  fun s =>
    let (r, w) := m (world s) in
    (r, {| world := w; calls := calls s ++ [c] |}).

(** A call of the [log] object. *)
Definition logging (m : M W unit) : M (state W) unit :=
  fun s =>
    let (r, w) := m (world s) in
    (r, {| world := w; calls := calls s |}).

(** [time.sleep(seconds)] *)
Definition sleep (seconds : Z) : M (state W) unit :=
  fun s => (Ok tt, {| world := world s; calls := calls s ++ [Sleep seconds] |}).

(** [(enriched.get('email') or [{}])[0].get('email')
     if enriched.get('email') else None] *)
Definition primary_email (enriched : pyval) : result pyval :=
  match get enriched "email" with
  | Raise e => Raise e
  | Ok cond =>
      if truthy cond then
        match get enriched "email" with
        | Raise e => Raise e
        | Ok emails =>
            match index0 (py_or emails (PList [PDict []])) with
            | Raise e => Raise e
            | Ok entry => get entry "email"
            end
        end
      else Ok PNone
  end.

Definition update_fields (enriched email : pyval) : result pyval :=
  match get enriched "phone", get enriched "linkedin",
        get enriched "company", get enriched "website" with
  | Ok phone, Ok linkedin, Ok company, Ok website =>
      Ok (PDict [ ("Email", email);
                  ("Phone", phone);
                  ("LinkedIn", linkedin);
                  ("Account", company);
                  ("Company website", website) ])
  | Raise e, _, _, _ | _, Raise e, _, _ | _, _, Raise e, _ | _, _, _, Raise e =>
      Raise e
  end.

Definition create_fields (enriched email : pyval) : result pyval :=
  match get enriched "full_name", get enriched "company",
        get enriched "website", get enriched "phone",
        get enriched "linkedin" with
  | Ok full_name, Ok company, Ok website, Ok phone, Ok linkedin =>
      Ok (PDict [ ("Name", full_name);
                  ("Account", company);
                  ("Company website", website);
                  ("Email", email);
                  ("Phone", phone);
                  ("LinkedIn", linkedin) ])
  | Raise e, _, _, _, _ | _, Raise e, _, _, _ | _, _, Raise e, _, _
  | _, _, _, Raise e, _ | _, _, _, _, Raise e => Raise e
  end.

Definition lemlist_lead (enriched email : pyval) : result pyval :=
  match get enriched "first_name", get enriched "last_name",
        get enriched "company" with
  | Ok first_name, Ok last_name, Ok company =>
      Ok (PDict [ ("email", email);
                  ("firstName", first_name);
                  ("lastName", last_name);
                  ("companyName", company) ])
  | Raise e, _, _ | _, Raise e, _ | _, _, Raise e => Raise e
  end.

Definition hubspot_contact (enriched email : pyval) : result pyval :=
  match get enriched "first_name", get enriched "last_name",
        get enriched "company", get enriched "phone" with
  | Ok first_name, Ok last_name, Ok company, Ok phone =>
      Ok (PDict [ ("email", email);
                  ("firstName", first_name);
                  ("lastName", last_name);
                  ("company", company);
                  ("phone", phone) ])
  | Raise e, _, _, _ | _, Raise e, _, _ | _, _, Raise e, _ | _, _, _, Raise e =>
      Raise e
  end.

Definition process_person (person : pyval) (clients : Clients W)
    (cfg : Config.t) : M (state W) unit :=
  let drop := dropcontact clients in
  let airtable := airtable clients in
  let lemlist := lemlist clients in
  let hubspot := hubspot clients in
  enriched <- invoke (Enrich person) (enrich drop person) ;;
  email <- lift (primary_email enriched) ;;
  full_name <- lift (get enriched "full_name") ;;
  logging (log_info "Enriched person -> {} | email={}" [full_name; email]) ;;
  if negb (truthy email) then
    logging (log_warning "No email found — skipping contact creation" [])
  else
    existing <- invoke (ListRecordsMatchingEmail email)
                  (list_records_matching_email airtable email) ;;
    (if truthy existing then
       entry <- lift (index0 existing) ;;
       rec_id <- lift (getitem entry "id") ;;
       fields <- lift (update_fields enriched email) ;;
       invoke (UpdateRecord rec_id fields) (update_record airtable rec_id fields)
     else
       fields <- lift (create_fields enriched email) ;;
       invoke (CreateRecord fields) (create_record airtable fields)) ;;
    lead <- lift (lemlist_lead enriched email) ;;
    invoke (AddLead lead) (add_lead lemlist lead) ;;
    contact <- lift (hubspot_contact enriched email) ;;
    invoke (UpsertContact contact) (upsert_contact hubspot contact) ;;
    ret tt.

(** The closure [run_cycle] of [main], over the objects [main] built. *)
Definition run_cycle (clients : Clients W) (cfg : Config.t) : M (state W) unit :=
  let phanto := phantombuster clients in
  logging (log_info "=== Run cycle started ===" []) ;;
  commenters <- invoke FetchPostCommenters (fetch_post_commenters phanto) ;;
  logging (log_info "Waiting 30 seconds to mimic n8n 'Wait 30s' node" []) ;;
  sleep 30 ;;
  n <- lift (len commenters) ;;
  logging (log_info "Fetched {} commenters" [PInt n]) ;;
  ps <- lift (iter commenters) ;;
  for_each ps (fun p => process_person p clients cfg) ;;
  likers <- invoke FetchPostLikers (fetch_post_likers phanto) ;;
  m <- lift (len likers) ;;
  logging (log_info "Fetched {} likers" [PInt m]) ;;
  qs <- lift (iter likers) ;;
  for_each qs (fun p => process_person p clients cfg) ;;
  invoke TriggerNextPhantom (trigger_next_phantom phanto) ;;
  logging (log_info "=== Run cycle finished ===" []) ;;
  ret tt.

(** The objects [main] constructs from the loaded configuration. *)
Definition make_clients (rt : Runtime) (cfg : Config.t) : Clients W :=
  {| phantombuster := PhantombusterClient.client (PhantombusterClient.init cfg);
     dropcontact := DropcontactClient.client rt (DropcontactClient.init cfg);
     airtable := AirtableClient.client (AirtableClient.init cfg);
     lemlist := LemlistClient.client (LemlistClient.init cfg);
     hubspot := HubspotClient.client (HubspotClient.init cfg) |}.

(** [main] with [--once]: load the configuration, build the clients, run
    one cycle. *)
Definition main_once (rt : Runtime) (env : Config.environ) : M (state W) unit :=
  let cfg := Config.load_from_env env in
  run_cycle (make_clients rt cfg) cfg.
End Orchestration.

(** ** Reading a run's calls *)

(** The calls that write to (or query) a downstream system on behalf of one
    record: everything [process_person] does after enrichment. *)
Definition is_downstream (c : call) : bool :=
  match c with
  | ListRecordsMatchingEmail _ | CreateRecord _ | UpdateRecord _ _
  | AddLead _ | UpsertContact _ => true
  | _ => false
  end.

Definition downstream (cs : list call) : list call := filter is_downstream cs.

(** The field-sets of the [create_record] calls, in order. *)
Definition created (cs : list call) : list pyval :=
  flat_map (fun c => match c with CreateRecord f => [f] | _ => [] end) cs.

(** The record ids and field-sets of the [update_record] calls, in order. *)
Definition updated (cs : list call) : list (pyval * pyval) :=
  flat_map (fun c => match c with UpdateRecord i f => [(i, f)] | _ => [] end) cs.

Definition leads_added (cs : list call) : list pyval :=
  flat_map (fun c => match c with AddLead l => [l] | _ => [] end) cs.

Definition contacts_upserted (cs : list call) : list pyval :=
  flat_map (fun c => match c with UpsertContact x => [x] | _ => [] end) cs.

(** The persons handed to [enrich]: one per [process_person]. *)
Definition enriched_persons (cs : list call) : list pyval :=
  flat_map (fun c => match c with Enrich p => [p] | _ => [] end) cs.

(** [d.get(k)] of a dictionary whose items are [d]. *)
Definition field (d : items) (k : string) : pyval :=
  match lookup k d with
  | Some x => x
  | None => PNone
  end.

(** The world after [process_person] has logged the enriched person. *)
Definition logged_enriched {W} `{Logging W} (d : items) (email : pyval) (w : W) : W :=
  emit (INFO, "Enriched person -> {} | email={}", [field d "full_name"; email]) w.

(** The world after the warning of a skipped record. *)
Definition logged_skip {W} `{Logging W} (w : W) : W :=
  emit (WARNING, "No email found — skipping contact creation", []) w.

(** The four dictionaries [process_person] builds from an enriched profile
    whose items are [d]. *)
Definition update_set (d : items) (email : pyval) : pyval :=
  PDict [ ("Email", email);
          ("Phone", field d "phone");
          ("LinkedIn", field d "linkedin");
          ("Account", field d "company");
          ("Company website", field d "website") ].

Definition create_set (d : items) (email : pyval) : pyval :=
  PDict [ ("Name", field d "full_name");
          ("Account", field d "company");
          ("Company website", field d "website");
          ("Email", email);
          ("Phone", field d "phone");
          ("LinkedIn", field d "linkedin") ].

Definition lead_of (d : items) (email : pyval) : pyval :=
  PDict [ ("email", email);
          ("firstName", field d "first_name");
          ("lastName", field d "last_name");
          ("companyName", field d "company") ].

Definition contact_of (d : items) (email : pyval) : pyval :=
  PDict [ ("email", email);
          ("firstName", field d "first_name");
          ("lastName", field d "last_name");
          ("company", field d "company");
          ("phone", field d "phone") ].

(** The store call of a record, by branch, and the method it invokes. *)
Definition store_call (d : items) (email existing rec_id : pyval) : call :=
  if truthy existing then UpdateRecord rec_id (update_set d email)
  else CreateRecord (create_set d email).

Definition store_method {W} (clients : Clients W) (d : items)
    (email existing rec_id : pyval) : M W pyval :=
  if truthy existing
  then update_record (airtable clients) rec_id (update_set d email)
  else create_record (airtable clients) (create_set d email).

(** A method that returns (whatever value) in every world, never raising. *)
Definition returns {W A} (m : M W A) : Prop :=
  forall w, exists a w', m w = (Ok a, w').

(** ** A runtime to run examples with *)

Definition ascii_lower_char (c : ascii) : ascii :=
  let n := nat_of_ascii c in
  if (65 <=? n)%nat && (n <=? 90)%nat then ascii_of_nat (n + 32) else c.

(** [str.lower] on ASCII text. *)
Fixpoint ascii_lower (s : string) : string :=
  match s with
  | EmptyString => EmptyString
  | String c s' => String (ascii_lower_char c) (ascii_lower s')
  end.

Fixpoint join (sep : string) (parts : list string) : string :=
  match parts with
  | [] => ""
  | [x] => x
  | x :: rest => (x ++ sep ++ join sep rest)%string
  end.

(** [repr(v)], for values whose strings need no escaping. *)
Fixpoint repr (v : pyval) : string :=
  match v with
  | PNone => "None"
  | PBool true => "True"
  | PBool false => "False"
  | PInt n => NilZero.string_of_int (Z.to_int n)
  | PStr s => ("'" ++ s ++ "'")%string
  | PList l => ("[" ++ join ", " (map repr l) ++ "]")%string
  | PDict d =>
      ("{" ++ join ", "
         (map (fun kv : string * pyval => let (k, x) := kv in ("'" ++ k ++ "': " ++ repr x)%string) d)
       ++ "}")%string
  end.

Definition ascii_runtime : Runtime :=
  {| lower := ascii_lower; render := repr |}.

(** ** Simulated mode *)

(** The first name [enrich] works from: the default [''] when the key is
    missing, the value when it is a string. *)
Definition first_name_of (p : items) : option string :=
  match lookup "first_name" p with
  | None => Some ""
  | Some (PStr f) => Some f
  | Some _ => None
  end.

(** The address the simulated enrichment makes up. *)
Definition mock_email (rt : Runtime) (f : string) : string :=
  (lower rt f ++ "@example.com")%string.

(** The profile the simulated enrichment returns for the person [p] whose
    first name is [f]. *)
Definition mock_profile (rt : Runtime) (p : items) (f : string) : items :=
  [ ("full_name",
     PStr (f ++ " " ++ format rt (match lookup "last_name" p with
                                   | Some x => x
                                   | None => PStr ""
                                   end))%string);
    ("first_name", field p "first_name");
    ("last_name", field p "last_name");
    ("email", PList [PDict [("email", PStr (mock_email rt f))]]);
    ("phone", PStr "");
    ("linkedin", field p "profile_url");
    ("company", PStr "Example Ltd");
    ("website", PStr "https://example.com") ].

(** The record the simulated store finds for every address without "new". *)
Definition mock_match (email : pyval) : pyval :=
  PDict [("id", PStr "rec123"); ("fields", PDict [("Email", email)])].

(** The calls of one record in simulated mode. *)
Definition mock_calls (rt : Runtime) (p : items) (f : string) : list call :=
  let d := PDict (mock_profile rt p f) in
  let email := PStr (mock_email rt f) in
  [ Enrich (PDict p);
    ListRecordsMatchingEmail email;
    (if substring_of "new" (mock_email rt f)
     then CreateRecord
            (PDict [ ("Name", field (mock_profile rt p f) "full_name");
                     ("Account", PStr "Example Ltd");
                     ("Company website", PStr "https://example.com");
                     ("Email", email);
                     ("Phone", PStr "");
                     ("LinkedIn", field p "profile_url") ])
     else UpdateRecord (PStr "rec123")
            (PDict [ ("Email", email);
                     ("Phone", PStr "");
                     ("LinkedIn", field p "profile_url");
                     ("Account", PStr "Example Ltd");
                     ("Company website", PStr "https://example.com") ]));
    AddLead (PDict [ ("email", email);
                     ("firstName", field p "first_name");
                     ("lastName", field p "last_name");
                     ("companyName", PStr "Example Ltd") ]);
    UpsertContact (PDict [ ("email", email);
                           ("firstName", field p "first_name");
                           ("lastName", field p "last_name");
                           ("company", PStr "Example Ltd");
                           ("phone", PStr "") ]) ].

(** The sample feed of simulated mode. *)
Definition ada : items :=
  [ ("first_name", PStr "Ada"); ("last_name", PStr "Lovelace");
    ("profile_url", PStr "https://linkedin.example/ada") ].

Definition alan : items :=
  [ ("first_name", PStr "Alan"); ("last_name", PStr "Turing");
    ("profile_url", PStr "https://linkedin.example/alan") ].

Definition grace : items :=
  [ ("first_name", PStr "Grace"); ("last_name", PStr "Hopper");
    ("profile_url", PStr "https://linkedin.example/grace") ].

(** An environment with no variable set, and its configuration. *)
Definition empty_env : Config.environ := fun _ => None.

Definition mock_cfg : Config.t := Config.load_from_env empty_env.

(** A state to start examples from: nothing logged, nothing called. *)
Definition fresh : state (list log_record) := {| world := ([] : list log_record); calls := [] |}.

(** ** Clients to run examples with *)

(** An environment with every variable set. *)
Definition full_env : Config.environ := fun _ => Some "secret".

Definition real_cfg : Config.t := Config.load_from_env full_env.

(** The clients [main] builds without credentials, and with all of them. *)
Definition sample_clients : Clients (list log_record) :=
  make_clients ascii_runtime mock_cfg.

Definition real_clients : Clients (list log_record) :=
  make_clients ascii_runtime real_cfg.

(** Simulated enrichment and store, with the outreach and CRM wrappers in real
    mode, where [add_lead] and [upsert_contact] return [False]. *)
Definition failing_fan_out_clients : Clients (list log_record) :=
  {| phantombuster := phantombuster sample_clients;
     dropcontact := dropcontact sample_clients;
     airtable := airtable sample_clients;
     lemlist := lemlist real_clients;
     hubspot := hubspot real_clients |}.

(** A test double for the enrichment: it answers every person with
    [profile]. *)
Definition enrichment_returning (profile : pyval) : Dropcontact (list log_record) :=
  {| enrich := fun _ => ret profile |}.

Definition clients_enriching_to (profile : pyval) : Clients (list log_record) :=
  {| phantombuster := phantombuster sample_clients;
     dropcontact := enrichment_returning profile;
     airtable := airtable sample_clients;
     lemlist := lemlist sample_clients;
     hubspot := hubspot sample_clients |}.

Definition newton : items := [ ("first_name", PStr "Newton") ].

(** What the five adapters do in simulated mode: each method returns its
    fixed sample value, and its only effect on the world is one log record. *)
Definition simulated {W} `{Logging W} (rt : Runtime) (clients : Clients W) : Prop :=
  (forall w,
     fetch_post_commenters (phantombuster clients) w
       = (Ok (PList [PDict ada; PDict alan]),
          emit (INFO, "[Phantombuster] Using mock commenters data", []) w)) /\
  (forall w,
     fetch_post_likers (phantombuster clients) w
       = (Ok (PList [PDict grace]),
          emit (INFO, "[Phantombuster] Using mock likers data", []) w)) /\
  (forall w,
     trigger_next_phantom (phantombuster clients) w
       = (Ok (PBool true),
          emit (INFO, "[Phantombuster] Mock trigger of next phantom", []) w)) /\
  (forall p f w,
     first_name_of p = Some f ->
     enrich (dropcontact clients) (PDict p) w = (Ok (PDict (mock_profile rt p f)), w)) /\
  (forall e w,
     list_records_matching_email (airtable clients) (PStr e) w
       = (Ok (if substring_of "new" e then PList [] else PList [mock_match (PStr e)]),
          emit (INFO, "[Airtable] Mock search for {}", [PStr e]) w)) /\
  (forall fields w,
     create_record (airtable clients) fields w
       = (Ok (PDict [("id", PStr "rec_new"); ("fields", fields)]),
          emit (INFO, "[Airtable] Mock create: {}", [fields]) w)) /\
  (forall record_id fields w,
     update_record (airtable clients) record_id fields w
       = (Ok (PDict [("id", record_id); ("fields", fields)]),
          emit (INFO, "[Airtable] Mock update {}: {}", [record_id; fields]) w)) /\
  (forall lead w,
     add_lead (lemlist clients) (PDict lead) w
       = (Ok (PBool true),
          emit (INFO, "[Lemlist] Mock add lead {}", [field lead "email"]) w)) /\
  (forall contact w,
     upsert_contact (hubspot clients) (PDict contact) w
       = (Ok (PBool true),
          emit (INFO, "[HubSpot] Mock upsert contact {}", [field contact "email"]) w)).

(** ** The shape of a record's calls *)

Definition is_store_write (c : call) : bool :=
  match c with
  | CreateRecord _ | UpdateRecord _ _ => true
  | _ => false
  end.

(** The field-set a store write carries. *)
Definition store_fields (c : call) : option pyval :=
  match c with
  | CreateRecord f | UpdateRecord _ f => Some f
  | _ => None
  end.

(** What can follow [enrich] in the calls of one record: a prefix of the
    lookup of an email, one store write, [add_lead] and [upsert_contact], all
    of them carrying that email. *)
Definition record_tail (rest : list call) : Prop :=
  exists (email fields lead contact : pyval) (store : call) (n : nat),
    rest = firstn n [ ListRecordsMatchingEmail email; store;
                      AddLead lead; UpsertContact contact ] /\
    is_store_write store = true /\
    store_fields store = Some fields /\
    get fields "Email" = Ok email /\
    get lead "email" = Ok email /\
    get contact "email" = Ok email.

(** The calls [process_person] can make. *)
Definition is_record_call (c : call) : bool :=
  match c with
  | Enrich _ => true
  | _ => is_downstream c
  end.

(** ** The driver's loop

    [main] takes its two flags from the command line; [argparse] gives
    [once = False] and [interval_minutes = 60] when they are absent. *)
Record Args : Type := {
  once : bool;
  interval_minutes : Z
}.

Definition default_args : Args := {| once := false; interval_minutes := 60 |}.

Section Driver.
Context {W : Type} `{Logging W}.

(** The first [rounds] passes through the body of [while True]: a cycle, the
    log line, the sleep.  The loop itself never ends; an exception of a
    cycle leaves it (only KeyboardInterrupt is caught around it).  For a
    negative interval [time.sleep] raises ValueError, which [exn] does not
    have: what is stated about the loop assumes the interval is not
    negative. *)
Fixpoint loop (rounds : nat) (clients : Clients W) (cfg : Config.t)
    (args : Args) : M (state W) unit :=
  match rounds with
  | O => ret tt
  | S rounds' =>
      run_cycle clients cfg ;;
      logging (log_info "Sleeping for {} minutes" [PInt (interval_minutes args)]) ;;
      sleep (interval_minutes args * 60) ;;
      loop rounds' clients cfg args
  end.

(** [main], observed for [rounds] passes of its loop when it loops. *)
Definition main (rt : Runtime) (env : Config.environ) (args : Args)
    (rounds : nat) : M (state W) unit :=
  let cfg := Config.load_from_env env in
  let clients := make_clients rt cfg in
  if once args then run_cycle clients cfg
  else loop rounds clients cfg args.
End Driver.

(** ** The calls of a cycle of [main] *)

Definition simulated_cycle_calls (rt : Runtime) : list call :=
  [FetchPostCommenters; Sleep 30] ++
  mock_calls rt ada "Ada" ++ mock_calls rt alan "Alan" ++
  [FetchPostLikers] ++
  mock_calls rt grace "Grace" ++
  [TriggerNextPhantom].

Definition real_cycle_calls : list call :=
  [FetchPostCommenters; Sleep 30; FetchPostLikers; TriggerNextPhantom].

Definition cycle_calls (rt : Runtime) (env : Config.environ) : list call :=
  if forallb (Config.provided env) Config.required
  then real_cycle_calls
  else simulated_cycle_calls rt.

(** ** Test doubles *)

(** A method that raises [e] and leaves the world as it is. *)
Definition raising {A : Type} (e : exn) : M (list log_record) A :=
  fun w => (Raise e, w).

(** A store that finds what the simulated store finds and fails on every
    write. *)
Definition read_only_store : Airtable (list log_record) :=
  {| list_records_matching_email :=
       list_records_matching_email (airtable sample_clients);
     create_record := fun _ => raising KeyError;
     update_record := fun _ _ => raising KeyError |}.

Definition clients_with_store (store : Airtable (list log_record))
    : Clients (list log_record) :=
  {| phantombuster := phantombuster sample_clients;
     dropcontact := dropcontact sample_clients;
     airtable := store;
     lemlist := lemlist sample_clients;
     hubspot := hubspot sample_clients |}.

(** The simulated clients with an outreach tool that fails. *)
Definition clients_with_failing_outreach : Clients (list log_record) :=
  {| phantombuster := phantombuster sample_clients;
     dropcontact := dropcontact sample_clients;
     airtable := airtable sample_clients;
     lemlist := {| add_lead := fun _ => raising KeyError |};
     hubspot := hubspot sample_clients |}.

(** A store whose matches come without an id. *)
Definition store_without_ids : Airtable (list log_record) :=
  {| list_records_matching_email :=
       fun email => ret (PList [PDict [("fields", PDict [("Email", email)])]]);
     create_record := create_record (airtable sample_clients);
     update_record := update_record (airtable sample_clients) |}.

(** A feed that answers with the given values. *)
Definition feed_returning (commenters likers : pyval) : Phantombuster (list log_record) :=
  {| fetch_post_commenters := ret commenters;
     fetch_post_likers := ret likers;
     trigger_next_phantom := ret (PBool true) |}.

Definition clients_with_feed (feed : Phantombuster (list log_record))
    : Clients (list log_record) :=
  {| phantombuster := feed;
     dropcontact := dropcontact sample_clients;
     airtable := airtable sample_clients;
     lemlist := lemlist sample_clients;
     hubspot := hubspot sample_clients |}.

(** A commenter whose first name the feed left null. *)
Definition nameless : items := [ ("first_name", PNone); ("last_name", PStr "Doe") ].

(** * Properties *)

(** Stepping through [process_person]. *)
Ltac enter_process_person :=
  unfold process_person; cbv zeta; unfold bind, invoke, lift.

Ltac run_logging :=
  unfold logging, log_info, log_warning, modify; cbn [world calls negb].

(** Case analysis on the outcome of every client call still to be made. *)
Ltac call_cases :=
  repeat match goal with
  | |- context [let (_, _) := ?m ?w in _] =>
      destruct (m w) as [[?|?] ?] eqn:?;
      cbn [world calls fst snd ret lemlist_lead hubspot_contact get get_default]
  end.

Ltac read_calls :=
  unfold created, updated, leads_added, contacts_upserted, downstream;
  rewrite ?flat_map_app, ?filter_app; cbn [flat_map filter is_downstream app];
  rewrite ?app_nil_r.

Section PipelineFacts.
Context {W : Type} `{Logging W}.
Variable clients : Clients W.
Variable cfg : Config.t.

Lemma get_dict (d : items) (k : string) : get (PDict d) k = Ok (field d k).
Proof. reflexivity. Qed.

Lemma update_fields_dict (d : items) (email : pyval) :
  update_fields (PDict d) email = Ok (update_set d email).
Proof. reflexivity. Qed.

Lemma create_fields_dict (d : items) (email : pyval) :
  create_fields (PDict d) email = Ok (create_set d email).
Proof. reflexivity. Qed.

Lemma lemlist_lead_dict (d : items) (email : pyval) :
  lemlist_lead (PDict d) email = Ok (lead_of d email).
Proof. reflexivity. Qed.

Lemma hubspot_contact_dict (d : items) (email : pyval) :
  hubspot_contact (PDict d) email = Ok (contact_of d email).
Proof. reflexivity. Qed.

(** A primary email can only be read off a dictionary. *)
Lemma primary_email_dict (enriched email : pyval) :
  primary_email enriched = Ok email -> exists d, enriched = PDict d.
Proof.
  destruct enriched; cbn; try discriminate. intros _. eexists; reflexivity.
Qed.

(** A record whose primary email is falsy is skipped: the run goes on, and
    [enrich] is the only call made for the record. *)
Lemma process_person_skip (person : pyval) (s : state W) (d : items)
    (w1 : W) (email : pyval) :
  enrich (dropcontact clients) person (world s) = (Ok (PDict d), w1) ->
  primary_email (PDict d) = Ok email ->
  truthy email = false ->
  process_person person clients cfg s =
    (Ok tt, {| world := logged_skip (logged_enriched d email w1);
               calls := calls s ++ [Enrich person] |}).
Proof.
  intros Henrich Hemail Hfalsy.
  enter_process_person.
  rewrite Henrich, Hemail, get_dict.
  run_logging.
  rewrite Hfalsy. reflexivity.
Qed.

(** Up to the store lookup. *)
Lemma process_person_lookup (person : pyval) (s : state W) (d : items)
    (w1 w2 : W) (email existing : pyval) :
  enrich (dropcontact clients) person (world s) = (Ok (PDict d), w1) ->
  primary_email (PDict d) = Ok email ->
  truthy email = true ->
  list_records_matching_email (airtable clients) email (logged_enriched d email w1)
    = (Ok existing, w2) ->
  process_person person clients cfg s =
    ((if truthy existing then
        entry <- lift (index0 existing) ;;
        rec_id <- lift (getitem entry "id") ;;
        invoke (UpdateRecord rec_id (update_set d email))
          (update_record (airtable clients) rec_id (update_set d email))
      else
        invoke (CreateRecord (create_set d email))
          (create_record (airtable clients) (create_set d email))) ;;
     invoke (AddLead (lead_of d email)) (add_lead (lemlist clients) (lead_of d email)) ;;
     invoke (UpsertContact (contact_of d email))
       (upsert_contact (hubspot clients) (contact_of d email)) ;;
     ret tt)
    {| world := w2;
       calls := calls s ++ [Enrich person; ListRecordsMatchingEmail email] |}.
Proof.
  intros Henrich Hemail Htruthy Hlist.
  unfold logged_enriched in Hlist.
  enter_process_person.
  rewrite Henrich, Hemail, get_dict.
  run_logging.
  rewrite Htruthy. cbn [negb world calls]. rewrite Hlist.
  rewrite <- app_assoc. cbn [app].
  destruct (truthy existing); reflexivity.
Qed.

(** The create branch: whatever the later calls do, the record is created
    once and nothing is updated. *)
Lemma create_branch_calls (person : pyval) (s : state W) (d : items)
    (w1 w2 : W) (email existing : pyval) :
  enrich (dropcontact clients) person (world s) = (Ok (PDict d), w1) ->
  primary_email (PDict d) = Ok email ->
  truthy email = true ->
  list_records_matching_email (airtable clients) email (logged_enriched d email w1)
    = (Ok existing, w2) ->
  truthy existing = false ->
  created (calls (snd (process_person person clients cfg s)))
    = created (calls s) ++ [create_set d email] /\
  updated (calls (snd (process_person person clients cfg s))) = updated (calls s).
Proof.
  intros Henrich Hemail Htruthy Hlist Hempty.
  rewrite (process_person_lookup _ _ _ _ _ _ _ Henrich Hemail Htruthy Hlist).
  rewrite Hempty. unfold bind, invoke, lift; cbn [world calls].
  call_cases; read_calls; split; reflexivity.
Qed.

(** The update branch: the first match is updated once, nothing is
    created. *)
Lemma update_branch_calls (person : pyval) (s : state W) (d : items)
    (w1 w2 : W) (email entry rec_id : pyval) (others : list pyval) :
  enrich (dropcontact clients) person (world s) = (Ok (PDict d), w1) ->
  primary_email (PDict d) = Ok email ->
  truthy email = true ->
  list_records_matching_email (airtable clients) email (logged_enriched d email w1)
    = (Ok (PList (entry :: others)), w2) ->
  getitem entry "id" = Ok rec_id ->
  updated (calls (snd (process_person person clients cfg s)))
    = updated (calls s) ++ [(rec_id, update_set d email)] /\
  created (calls (snd (process_person person clients cfg s))) = created (calls s).
Proof.
  intros Henrich Hemail Htruthy Hlist Hid.
  rewrite (process_person_lookup _ _ _ _ _ _ _ Henrich Hemail Htruthy Hlist).
  cbn [truthy index0]. unfold bind, invoke, lift; cbn [world calls].
  rewrite Hid.
  call_cases; read_calls; split; reflexivity.
Qed.

(** Once the store call and [add_lead] have returned, with whatever
    values, all five calls of the record have been made. *)
Lemma process_person_fan_out (person : pyval) (s : state W) (d : items)
    (w1 w2 w3 w4 : W) (email existing entry rec_id stored added : pyval) :
  enrich (dropcontact clients) person (world s) = (Ok (PDict d), w1) ->
  primary_email (PDict d) = Ok email ->
  truthy email = true ->
  list_records_matching_email (airtable clients) email (logged_enriched d email w1)
    = (Ok existing, w2) ->
  (truthy existing = true ->
     index0 existing = Ok entry /\ getitem entry "id" = Ok rec_id) ->
  store_method clients d email existing rec_id w2 = (Ok stored, w3) ->
  add_lead (lemlist clients) (lead_of d email) w3 = (Ok added, w4) ->
  process_person person clients cfg s =
    (let (r, w5) := upsert_contact (hubspot clients) (contact_of d email) w4 in
     (match r with Ok _ => Ok tt | Raise e => Raise e end,
      {| world := w5;
         calls := calls s ++ [ Enrich person; ListRecordsMatchingEmail email;
                               store_call d email existing rec_id;
                               AddLead (lead_of d email);
                               UpsertContact (contact_of d email) ] |})).
Proof.
  intros Henrich Hemail Htruthy Hlist Hshape Hstore Hlead.
  rewrite (process_person_lookup _ _ _ _ _ _ _ Henrich Hemail Htruthy Hlist).
  unfold store_method, store_call in *.
  destruct (truthy existing) eqn:Hexisting.
  - destruct (Hshape eq_refl) as [Hentry Hid].
    unfold bind, invoke, lift; cbn [world calls]. rewrite Hentry, Hid, Hstore.
    cbn [world calls]. rewrite Hlead. cbn [world calls].
    destruct (upsert_contact _ _ _) as [[v5|e] w5];
      cbn [ret]; rewrite <- !app_assoc; reflexivity.
  - unfold bind, invoke, lift; cbn [world calls]. rewrite Hstore.
    cbn [world calls]. rewrite Hlead. cbn [world calls].
    destruct (upsert_contact _ _ _) as [[v5|e] w5];
      cbn [ret]; rewrite <- !app_assoc; reflexivity.
Qed.

(** A record whose email has a match, when the calls made for it return:
    the five calls, with an update of the first match. *)
Lemma process_person_update_path (person : pyval) (s : state W) (d : items)
    (email : pyval) :
  (forall w, exists w', enrich (dropcontact clients) person w = (Ok (PDict d), w')) ->
  primary_email (PDict d) = Ok email ->
  truthy email = true ->
  (forall w, exists entry others rec_id w',
     list_records_matching_email (airtable clients) email w
       = (Ok (PList (entry :: others)), w') /\
     getitem entry "id" = Ok rec_id) ->
  (forall rec_id, returns (update_record (airtable clients) rec_id (update_set d email))) ->
  returns (add_lead (lemlist clients) (lead_of d email)) ->
  returns (upsert_contact (hubspot clients) (contact_of d email)) ->
  exists rec_id w',
    process_person person clients cfg s =
      (Ok tt, {| world := w';
                 calls := calls s ++ [ Enrich person; ListRecordsMatchingEmail email;
                                       UpdateRecord rec_id (update_set d email);
                                       AddLead (lead_of d email);
                                       UpsertContact (contact_of d email) ] |}).
Proof.
  intros Henrich Hemail Htruthy Hlist Hupdate Hlead Hupsert.
  destruct (Henrich (world s)) as (w1 & H1).
  destruct (Hlist (logged_enriched d email w1)) as (entry & others & rec_id & w2 & H2 & Hid).
  destruct (Hupdate rec_id w2) as (v3 & w3 & H3).
  destruct (Hlead w3) as (v4 & w4 & H4).
  destruct (Hupsert w4) as (v5 & w5 & H5).
  exists rec_id, w5.
  rewrite (process_person_fan_out person s d w1 w2 w3 w4 email
             (PList (entry :: others)) entry rec_id v3 v4);
    try assumption.
  - rewrite H5. reflexivity.
  - intros _. split; [reflexivity | assumption].
Qed.
(** Whatever the clients do, the calls of one record are [enrich] on that
    record followed by downstream calls only. *)
Lemma process_person_calls (person : pyval) (s : state W) :
  exists rest,
    calls (snd (process_person person clients cfg s)) = calls s ++ Enrich person :: rest /\
    forallb is_downstream rest = true.
Proof.
  enter_process_person.
  destruct (enrich (dropcontact clients) person (world s)) as [[enriched|e] w1];
    cbn [world calls snd]; [|exists []; split; reflexivity].
  destruct (primary_email enriched) as [email|e] eqn:Hemail;
    [|exists []; split; reflexivity].
  destruct (primary_email_dict _ _ Hemail) as (d & ->).
  rewrite get_dict. run_logging.
  destruct (truthy email); cbn [negb snd calls]; [|exists []; split; reflexivity].
  destruct (list_records_matching_email _ _ _) as [[existing|e] w2];
    cbn [world calls snd];
    [|exists [ListRecordsMatchingEmail email]; rewrite <- app_assoc; split; reflexivity].
  rewrite update_fields_dict, create_fields_dict, lemlist_lead_dict, hubspot_contact_dict.
  destruct (truthy existing);
    [destruct (index0 existing) as [entry|e];
       [destruct (getitem entry "id") as [rec_id|e]|]|];
    call_cases;
    rewrite <- ?app_assoc; cbn [app]; eexists; (split; [reflexivity|]); reflexivity.
Qed.

(** C1.  A record whose enrichment result holds no email (the ['email'] item
    is missing, or is the empty list) is skipped: [process_person] returns
    normally, so the run goes on, and [enrich] is the only call it has made
    (no lookup, create, update, add_lead or upsert_contact). *)
Theorem no_email_no_downstream_calls (person : pyval) (s : state W)
    (d : items) (w1 : W) :
  enrich (dropcontact clients) person (world s) = (Ok (PDict d), w1) ->
  lookup "email" d = None \/ lookup "email" d = Some (PList []) ->
  fst (process_person person clients cfg s) = Ok tt /\
  calls (snd (process_person person clients cfg s)) = calls s ++ [Enrich person] /\
  downstream (calls (snd (process_person person clients cfg s))) = downstream (calls s).
Proof.
  intros Henrich Hnone.
  assert (Hemail : primary_email (PDict d) = Ok PNone).
  { unfold primary_email, get, get_default.
    destruct Hnone as [-> | ->]; reflexivity. }
  rewrite (process_person_skip person s d w1 PNone Henrich Hemail eq_refl).
  cbn [fst snd calls]. repeat split. read_calls. reflexivity.
Qed.

(** C10.  A falsy primary email counts as no email.  For each of the four
    shapes (no ['email'] item; the empty list; a list whose first entry is a
    dictionary without ['email']; a list whose first entry maps ['email'] to
    the empty string) the extraction returns a falsy value without raising,
    and the record is skipped with [enrich] as its only call. *)
Theorem falsy_email_is_skipped (person : pyval) (s : state W)
    (d entry : items) (others : list pyval) (w1 : W) :
  enrich (dropcontact clients) person (world s) = (Ok (PDict d), w1) ->
  lookup "email" d = None \/
  lookup "email" d = Some (PList []) \/
  (lookup "email" d = Some (PList (PDict entry :: others)) /\
   lookup "email" entry = None) \/
  (lookup "email" d = Some (PList (PDict entry :: others)) /\
   lookup "email" entry = Some (PStr "")) ->
  exists email,
    primary_email (PDict d) = Ok email /\
    truthy email = false /\
    process_person person clients cfg s =
      (Ok tt, {| world := logged_skip (logged_enriched d email w1);
                 calls := calls s ++ [Enrich person] |}) /\
    downstream (calls (snd (process_person person clients cfg s))) = downstream (calls s).
Proof.
  intros Henrich Hshape.
  assert (Hemail : exists email,
             primary_email (PDict d) = Ok email /\ truthy email = false).
  { unfold primary_email, get, get_default.
    destruct Hshape as [-> | [-> | [[-> Hentry] | [-> Hentry]]]];
      cbn [truthy py_or index0]; rewrite ?Hentry; eexists; split; reflexivity. }
  destruct Hemail as (email & Hemail & Hfalsy).
  exists email.
  rewrite (process_person_skip person s d w1 email Henrich Hemail Hfalsy).
  cbn [snd calls]. repeat split; try assumption. read_calls. reflexivity.
Qed.

(** C3.  When the lookup of a resolvable email returns a non-empty sequence,
    [process_person] calls [update_record] exactly once and [create_record]
    not at all; the update is addressed to the id of the first match, and
    its field-set has exactly the keys Email, Phone, LinkedIn, Account and
    Company website, so never Name. *)
Theorem update_when_match_exists (person : pyval) (s : state W) (d : items)
    (w1 w2 : W) (email entry rec_id : pyval) (others : list pyval) :
  enrich (dropcontact clients) person (world s) = (Ok (PDict d), w1) ->
  primary_email (PDict d) = Ok email ->
  truthy email = true ->
  list_records_matching_email (airtable clients) email (logged_enriched d email w1)
    = (Ok (PList (entry :: others)), w2) ->
  getitem entry "id" = Ok rec_id ->
  exists fields,
    update_fields (PDict d) email = Ok fields /\
    updated (calls (snd (process_person person clients cfg s)))
      = updated (calls s) ++ [(rec_id, fields)] /\
    created (calls (snd (process_person person clients cfg s))) = created (calls s) /\
    keys fields = ["Email"; "Phone"; "LinkedIn"; "Account"; "Company website"] /\
    ~ In "Name" (keys fields).
Proof.
  intros Henrich Hemail Htruthy Hlist Hid.
  exists (update_set d email).
  destruct (update_branch_calls person s d w1 w2 email entry rec_id others)
    as [Hupdated Hcreated]; try assumption.
  repeat split; try assumption.
  cbn. intros [Hin | [Hin | [Hin | [Hin | [Hin | []]]]]]; discriminate.
Qed.

(** C4.  For a record with a resolvable email, in either store branch, once
    the store call and [add_lead] have returned, whatever values they
    returned (falsy ones included), [add_lead] and [upsert_contact] have each
    been called exactly once, each with the record's email; this holds
    whatever [upsert_contact] itself does. *)
Theorem fan_out_exactly_once (person : pyval) (s : state W) (d : items)
    (w1 w2 w3 w4 : W) (email existing entry rec_id stored added : pyval) :
  enrich (dropcontact clients) person (world s) = (Ok (PDict d), w1) ->
  primary_email (PDict d) = Ok email ->
  truthy email = true ->
  list_records_matching_email (airtable clients) email (logged_enriched d email w1)
    = (Ok existing, w2) ->
  (truthy existing = true ->
     index0 existing = Ok entry /\ getitem entry "id" = Ok rec_id) ->
  store_method clients d email existing rec_id w2 = (Ok stored, w3) ->
  add_lead (lemlist clients) (lead_of d email) w3 = (Ok added, w4) ->
  leads_added (calls (snd (process_person person clients cfg s)))
    = leads_added (calls s) ++ [lead_of d email] /\
  contacts_upserted (calls (snd (process_person person clients cfg s)))
    = contacts_upserted (calls s) ++ [contact_of d email] /\
  get (lead_of d email) "email" = Ok email /\
  get (contact_of d email) "email" = Ok email.
Proof.
  intros Henrich Hemail Htruthy Hlist Hshape Hstore Hlead.
  rewrite (process_person_fan_out person s d w1 w2 w3 w4 email existing
             entry rec_id stored added); try assumption.
  destruct (upsert_contact _ _ _) as [r w5]. cbn [snd calls].
  unfold store_call. destruct (truthy existing); read_calls; repeat split.
Qed.

(** C5.  Processing the same commenter twice in succession, when the store
    has a match for the commenter's email whenever it is asked and the calls
    made return, yields exactly two [update_record] calls and no
    [create_record] call. *)
Theorem repeated_email_updates_twice (person : pyval) (s : state W)
    (d : items) (email : pyval) :
  (forall w, exists w', enrich (dropcontact clients) person w = (Ok (PDict d), w')) ->
  primary_email (PDict d) = Ok email ->
  truthy email = true ->
  (forall w, exists entry others rec_id w',
     list_records_matching_email (airtable clients) email w
       = (Ok (PList (entry :: others)), w') /\
     getitem entry "id" = Ok rec_id) ->
  (forall rec_id, returns (update_record (airtable clients) rec_id (update_set d email))) ->
  returns (add_lead (lemlist clients) (lead_of d email)) ->
  returns (upsert_contact (hubspot clients) (contact_of d email)) ->
  let twice := process_person person clients cfg ;; process_person person clients cfg in
  fst (twice s) = Ok tt /\
  (exists id1 id2,
     updated (calls (snd (twice s)))
       = updated (calls s) ++ [(id1, update_set d email); (id2, update_set d email)]) /\
  created (calls (snd (twice s))) = created (calls s).
Proof.
  intros Henrich Hemail Htruthy Hlist Hupdate Hlead Hupsert twice.
  destruct (process_person_update_path person s d email) as (id1 & w1 & Hfirst);
    try assumption.
  destruct (process_person_update_path person
              {| world := w1;
                 calls := calls s ++ [ Enrich person; ListRecordsMatchingEmail email;
                                       UpdateRecord id1 (update_set d email);
                                       AddLead (lead_of d email);
                                       UpsertContact (contact_of d email) ] |}
              d email) as (id2 & w2 & Hsecond); try assumption.
  assert (Htwice : twice s =
            (Ok tt, {| world := w2;
                       calls := (calls s ++ [ Enrich person; ListRecordsMatchingEmail email;
                                              UpdateRecord id1 (update_set d email);
                                              AddLead (lead_of d email);
                                              UpsertContact (contact_of d email) ])
                                ++ [ Enrich person; ListRecordsMatchingEmail email;
                                     UpdateRecord id2 (update_set d email);
                                     AddLead (lead_of d email);
                                     UpsertContact (contact_of d email) ] |})).
  { subst twice. unfold bind. rewrite Hfirst. exact Hsecond. }
  rewrite Htwice. cbn [fst snd calls].
  split; [reflexivity|]. split.
  - exists id1, id2. read_calls. rewrite <- app_assoc. reflexivity.
  - read_calls. reflexivity.
Qed.

Lemma downstream_calls_enrich_nothing (cs : list call) :
  forallb is_downstream cs = true ->
  enriched_persons cs = [] /\ ~ In TriggerNextPhantom cs.
Proof.
  induction cs as [|c cs IH]; cbn [forallb]; intros Hall.
  - split; [reflexivity | intros []].
  - apply andb_prop in Hall. destruct Hall as [Hc Hcs].
    destruct (IH Hcs) as [Hnone Hnotin].
    split.
    + destruct c; try discriminate; exact Hnone.
    + intros [-> | Hin]; [discriminate | exact (Hnotin Hin)].
Qed.

(** A batch whose records are all processed to the end: one [enrich] per
    record, in the order of the batch, and no trigger. *)
Lemma for_each_process_person (ps : list pyval) :
  (forall p, In p ps -> forall s, fst (process_person p clients cfg s) = Ok tt) ->
  forall s, exists s' cs,
    for_each ps (fun p => process_person p clients cfg) s = (Ok tt, s') /\
    calls s' = calls s ++ cs /\
    enriched_persons cs = ps /\
    ~ In TriggerNextPhantom cs.
Proof.
  induction ps as [|p ps IH]; intros Hok s.
  - exists s, []. cbn. rewrite app_nil_r. repeat split. intros [].
  - destruct (process_person_calls p s) as (rest & Hcalls & Hdown).
    pose proof (Hok p (or_introl eq_refl) s) as Hp.
    destruct (process_person p clients cfg s) as [r s1] eqn:Hrun.
    cbn [fst snd] in Hp, Hcalls. subst r.
    destruct (IH (fun q Hq => Hok q (or_intror Hq)) s1) as (s2 & cs & Hrest & Hcs & Hps & Hnot).
    destruct (downstream_calls_enrich_nothing rest Hdown) as [Hnone Hnotin].
    exists s2, (Enrich p :: rest ++ cs).
    cbn [for_each]. unfold bind at 1. rewrite Hrun, Hrest.
    split; [reflexivity|]. split; [|split].
    + rewrite Hcs, Hcalls, <- app_assoc. reflexivity.
    + unfold enriched_persons in *. cbn [flat_map app].
      rewrite flat_map_app, Hnone, Hps. reflexivity.
    + intros [Hin | Hin]; [discriminate|].
      apply in_app_or in Hin. destruct Hin as [Hin | Hin]; auto.
Qed.

(** C7.  One cycle over a feed of two commenters and one liker, each of them
    processed to the end, hands exactly these three records to
    [process_person], each once, the commenters before the liker, and calls
    [trigger_next_phantom] exactly once, as the last call of the cycle. *)
Theorem run_cycle_three_records_then_trigger (s : state W) (c1 c2 l1 : pyval) :
  (forall w, exists w',
     fetch_post_commenters (phantombuster clients) w = (Ok (PList [c1; c2]), w')) ->
  (forall w, exists w',
     fetch_post_likers (phantombuster clients) w = (Ok (PList [l1]), w')) ->
  (forall p, In p [c1; c2; l1] ->
     forall s, fst (process_person p clients cfg s) = Ok tt) ->
  exists commenter_calls liker_calls,
    calls (snd (run_cycle clients cfg s))
      = calls s ++ [FetchPostCommenters; Sleep 30] ++ commenter_calls ++
        [FetchPostLikers] ++ liker_calls ++ [TriggerNextPhantom] /\
    enriched_persons commenter_calls = [c1; c2] /\
    enriched_persons liker_calls = [l1] /\
    ~ In TriggerNextPhantom commenter_calls /\
    ~ In TriggerNextPhantom liker_calls.
Proof.
  intros Hcommenters Hlikers Hok.
  unfold run_cycle; cbv zeta.
  unfold bind at 1, logging at 1, log_info at 1, modify at 1. cbn [world calls].
  unfold bind at 1, invoke at 1. cbn [world calls].
  destruct (Hcommenters (emit (INFO, "=== Run cycle started ===", []) (world s)))
    as (w1 & ->).
  unfold bind at 1, logging at 1, log_info at 1, modify at 1. cbn [world calls].
  unfold bind at 1, sleep at 1. cbn [world calls].
  unfold bind at 1, lift at 1. cbn [len].
  unfold bind at 1, logging at 1, log_info at 1, modify at 1. cbn [world calls].
  unfold bind at 1, lift at 1. cbn [iter].
  unfold bind at 1.
  match goal with
  | |- context [for_each [c1; c2] _ ?st] =>
      destruct (for_each_process_person [c1; c2]
                  (fun p Hp => Hok p (in_or_app [c1; c2] [l1] p (or_introl Hp))) st)
        as (s2 & cs & -> & Hcs & Hps & Hnot)
  end.
  cbn [calls] in Hcs.
  unfold bind at 1, invoke at 1.
  destruct (Hlikers (world s2)) as (w3 & ->).
  unfold bind at 1, lift at 1. cbn [len].
  unfold bind at 1, logging at 1, log_info at 1, modify at 1. cbn [world calls].
  unfold bind at 1, lift at 1. cbn [iter].
  unfold bind at 1.
  match goal with
  | |- context [for_each [l1] _ ?st] =>
      destruct (for_each_process_person [l1]
                  (fun p Hp => Hok p (in_or_app [c1; c2] [l1] p (or_intror Hp))) st)
        as (s4 & ls & -> & Hls & Hqs & Hnot')
  end.
  cbn [calls] in Hls.
  exists cs, ls.
  split; [|repeat split; assumption].
  unfold bind, invoke, logging, log_info, modify, ret.
  destruct (trigger_next_phantom (phantombuster clients) (world s4)) as [[v|e] w5];
    cbn [snd calls]; rewrite Hls, Hcs, <- !app_assoc; reflexivity.
Qed.
End PipelineFacts.

(** ** Simulated mode *)

Section Simulated.
Context {W : Type} `{Logging W}.
Variable rt : Runtime.
Variable cfg : Config.t.
Hypothesis Hmock : Config.mock cfg = true.

Lemma mock_email_not_empty (f : string) : (mock_email rt f =? "") = false.
Proof.
  unfold mock_email. destruct (lower rt f); reflexivity.
Qed.

Lemma mock_enrich (p : items) (f : string) (w : W) :
  first_name_of p = Some f ->
  enrich (dropcontact (make_clients rt cfg)) (PDict p) w
    = (Ok (PDict (mock_profile rt p f)), w).
Proof.
  unfold first_name_of. intros Hf.
  cbn [make_clients dropcontact DropcontactClient.client enrich
       DropcontactClient.enrich DropcontactClient.init DropcontactClient.mock].
  unfold DropcontactClient.enrich, DropcontactClient.init; cbn [DropcontactClient.mock].
  rewrite Hmock.
  unfold bind, lift, ret, get, get_default, mock_profile, field, mock_email.
  destruct (lookup "first_name" p) as [[]|]; try discriminate;
    injection Hf as <-; reflexivity.
Qed.

Lemma mock_enrich_raises (p : items) (w : W) :
  first_name_of p = None ->
  enrich (dropcontact (make_clients rt cfg)) (PDict p) w = (Raise AttributeError, w).
Proof.
  unfold first_name_of. intros Hf.
  cbn [make_clients dropcontact DropcontactClient.client enrich
       DropcontactClient.enrich DropcontactClient.init DropcontactClient.mock].
  unfold DropcontactClient.enrich, DropcontactClient.init; cbn [DropcontactClient.mock].
  rewrite Hmock.
  unfold bind, lift, ret, get, get_default.
  destruct (lookup "first_name" p) as [[]|]; try discriminate; reflexivity.
Qed.

Lemma mock_primary_email (p : items) (f : string) :
  primary_email (PDict (mock_profile rt p f)) = Ok (PStr (mock_email rt f)).
Proof. reflexivity. Qed.

Lemma mock_list_records (e : string) (w : W) :
  list_records_matching_email (airtable (make_clients rt cfg)) (PStr e) w
    = (Ok (if substring_of "new" e then PList [] else PList [mock_match (PStr e)]),
       emit (INFO, "[Airtable] Mock search for {}", [PStr e]) w).
Proof.
  cbn [make_clients airtable AirtableClient.client list_records_matching_email
       AirtableClient.list_records_matching_email AirtableClient.init AirtableClient.mock].
  unfold AirtableClient.list_records_matching_email, AirtableClient.init;
    cbn [AirtableClient.mock].
  rewrite Hmock.
  unfold bind, lift, ret, log_info, modify, contains.
  destruct (substring_of "new" e); reflexivity.
Qed.

Lemma mock_create_record (fields : pyval) (w : W) :
  create_record (airtable (make_clients rt cfg)) fields w
    = (Ok (PDict [("id", PStr "rec_new"); ("fields", fields)]),
       emit (INFO, "[Airtable] Mock create: {}", [fields]) w).
Proof.
  cbn [make_clients airtable AirtableClient.client create_record].
  unfold AirtableClient.create_record, AirtableClient.init; cbn [AirtableClient.mock].
  rewrite Hmock. reflexivity.
Qed.

Lemma mock_update_record (record_id fields : pyval) (w : W) :
  update_record (airtable (make_clients rt cfg)) record_id fields w
    = (Ok (PDict [("id", record_id); ("fields", fields)]),
       emit (INFO, "[Airtable] Mock update {}: {}", [record_id; fields]) w).
Proof.
  cbn [make_clients airtable AirtableClient.client update_record].
  unfold AirtableClient.update_record, AirtableClient.init; cbn [AirtableClient.mock].
  rewrite Hmock. reflexivity.
Qed.

Lemma mock_add_lead (lead : items) (w : W) :
  add_lead (lemlist (make_clients rt cfg)) (PDict lead) w
    = (Ok (PBool true), emit (INFO, "[Lemlist] Mock add lead {}", [field lead "email"]) w).
Proof.
  cbn [make_clients lemlist LemlistClient.client add_lead].
  unfold LemlistClient.add_lead, LemlistClient.init; cbn [LemlistClient.mock].
  rewrite Hmock. reflexivity.
Qed.

Lemma mock_upsert_contact (contact : items) (w : W) :
  upsert_contact (hubspot (make_clients rt cfg)) (PDict contact) w
    = (Ok (PBool true),
       emit (INFO, "[HubSpot] Mock upsert contact {}", [field contact "email"]) w).
Proof.
  cbn [make_clients hubspot HubspotClient.client upsert_contact].
  unfold HubspotClient.upsert_contact, HubspotClient.init; cbn [HubspotClient.mock].
  rewrite Hmock. reflexivity.
Qed.

(** One record in simulated mode: the five calls of [mock_calls], and a
    normal return. *)
Lemma mock_process_person (p : items) (f : string) (s : state W) :
  first_name_of p = Some f ->
  exists w',
    process_person (PDict p) (make_clients rt cfg) cfg s
      = (Ok tt, {| world := w'; calls := calls s ++ mock_calls rt p f |}).
Proof.
  intros Hf.
  pose proof (mock_enrich p f (world s) Hf) as Henrich.
  pose proof (mock_primary_email p f) as Hemail.
  assert (Htruthy : truthy (PStr (mock_email rt f)) = true).
  { cbn [truthy]. rewrite mock_email_not_empty. reflexivity. }
  pose proof (mock_list_records (mock_email rt f)
                (logged_enriched (mock_profile rt p f) (PStr (mock_email rt f)) (world s)))
    as Hlist.
  unfold mock_calls.
  destruct (substring_of "new" (mock_email rt f)) eqn:Hnew; eexists;
    (erewrite (process_person_fan_out (make_clients rt cfg) cfg (PDict p) s
                 (mock_profile rt p f) _ _ _ _ (PStr (mock_email rt f)) _
                 (mock_match (PStr (mock_email rt f))) (PStr "rec123"));
     [ | exact Henrich | exact Hemail | exact Htruthy | exact Hlist | | | ]).
  - unfold contact_of. rewrite mock_upsert_contact. reflexivity.
  - discriminate.
  - apply mock_create_record.
  - unfold lead_of. apply mock_add_lead.
  - unfold contact_of. rewrite mock_upsert_contact. reflexivity.
  - intros _. split; reflexivity.
  - apply mock_update_record.
  - unfold lead_of. apply mock_add_lead.
Qed.

Lemma mock_feed (w : W) :
  fetch_post_commenters (phantombuster (make_clients rt cfg)) w
    = (Ok (PList [PDict ada; PDict alan]),
       emit (INFO, "[Phantombuster] Using mock commenters data", []) w) /\
  fetch_post_likers (phantombuster (make_clients rt cfg)) w
    = (Ok (PList [PDict grace]),
       emit (INFO, "[Phantombuster] Using mock likers data", []) w) /\
  trigger_next_phantom (phantombuster (make_clients rt cfg)) w
    = (Ok (PBool true),
       emit (INFO, "[Phantombuster] Mock trigger of next phantom", []) w).
Proof.
  cbn [make_clients phantombuster PhantombusterClient.client
       fetch_post_commenters fetch_post_likers trigger_next_phantom].
  unfold PhantombusterClient.fetch_post_commenters,
    PhantombusterClient.fetch_post_likers,
    PhantombusterClient.trigger_next_phantom, PhantombusterClient.init;
    cbn [PhantombusterClient.mock].
  rewrite Hmock. repeat split.
Qed.

Lemma mock_clients_simulated : simulated rt (make_clients rt cfg).
Proof.
  unfold simulated.
  repeat match goal with |- _ /\ _ => split end; intros.
  - apply mock_feed.
  - apply mock_feed.
  - apply mock_feed.
  - apply mock_enrich; assumption.
  - apply mock_list_records.
  - apply mock_create_record.
  - apply mock_update_record.
  - apply mock_add_lead.
  - apply mock_upsert_contact.
Qed.

(** A person that is not a dictionary has no [get]. *)
Lemma mock_enrich_not_dict (person : pyval) (w : W) :
  (forall p, person <> PDict p) ->
  enrich (dropcontact (make_clients rt cfg)) person w = (Raise AttributeError, w).
Proof.
  intros Hnot.
  cbn [make_clients dropcontact DropcontactClient.client enrich].
  unfold DropcontactClient.enrich, DropcontactClient.init; cbn [DropcontactClient.mock].
  rewrite Hmock.
  destruct person; try reflexivity. exfalso. eapply Hnot. reflexivity.
Qed.

(** When [enrich] raises, [process_person] raises the same, having made that
    one call. *)
Lemma process_person_enrich_raises (clients : Clients W) (person : pyval)
    (s : state W) (e : exn) (w1 : W) :
  enrich (dropcontact clients) person (world s) = (Raise e, w1) ->
  process_person person clients cfg s
    = (Raise e, {| world := w1; calls := calls s ++ [Enrich person] |}).
Proof.
  intros Henrich. enter_process_person. rewrite Henrich. reflexivity.
Qed.

(** One cycle in simulated mode. *)
Lemma mock_run_cycle (s : state W) :
  exists w',
    run_cycle (make_clients rt cfg) cfg s
      = (Ok tt,
         {| world := w';
            calls := calls s ++
                     [FetchPostCommenters; Sleep 30] ++
                     mock_calls rt ada "Ada" ++ mock_calls rt alan "Alan" ++
                     [FetchPostLikers] ++
                     mock_calls rt grace "Grace" ++
                     [TriggerNextPhantom] |}).
Proof.
  unfold run_cycle; cbv zeta.
  unfold bind, logging, log_info, modify, invoke, sleep, lift; cbn [world calls].
  rewrite (proj1 (mock_feed _)). cbn [len iter for_each world calls].
  unfold bind.
  repeat match goal with
  | |- context [process_person (PDict ?p) _ _ ?st] =>
      let w := fresh "w" in
      let Hw := fresh "Hw" in
      destruct (mock_process_person p
                  (match first_name_of p with Some f => f | None => "" end) st eq_refl)
        as (w & Hw);
      cbn [first_name_of lookup ada alan grace String.eqb Ascii.eqb Bool.eqb] in Hw;
      rewrite Hw; clear Hw; cbn [ret world calls]
  | |- context [fetch_post_likers _ ?w] =>
      rewrite (proj1 (proj2 (mock_feed w))); cbn [len iter for_each world calls];
      unfold bind
  | |- context [trigger_next_phantom _ ?w] =>
      rewrite (proj2 (proj2 (mock_feed w))); cbn [world calls]
  end.
  eexists. rewrite <- !app_assoc. reflexivity.
Qed.

(** C9, for persons whose first name is missing or is a string.  In simulated
    mode [enrich] returns, for every such person (the empty first name
    included, the last name being anything), a profile with exactly one email, the lowercased first name followed by
    "@example.com", which is not empty; and no person whatsoever is skipped
    for lack of an email: [process_person] either makes the five calls of the
    record and returns, or it raises AttributeError out of [enrich]. *)
Theorem simulated_enrichment_has_email :
  (forall (p : items) (f : string) (w : W),
     first_name_of p = Some f ->
     enrich (dropcontact (make_clients rt cfg)) (PDict p) w
       = (Ok (PDict (mock_profile rt p f)), w) /\
     field (mock_profile rt p f) "email"
       = PList [PDict [("email", PStr (lower rt f ++ "@example.com")%string)]] /\
     primary_email (PDict (mock_profile rt p f))
       = Ok (PStr (lower rt f ++ "@example.com")%string) /\
     truthy (PStr (lower rt f ++ "@example.com")%string) = true) /\
  (forall (person : pyval) (s : state W),
     (exists p f,
        person = PDict p /\ first_name_of p = Some f /\
        fst (process_person person (make_clients rt cfg) cfg s) = Ok tt /\
        calls (snd (process_person person (make_clients rt cfg) cfg s))
          = calls s ++ mock_calls rt p f) \/
     process_person person (make_clients rt cfg) cfg s
       = (Raise AttributeError,
          {| world := world s; calls := calls s ++ [Enrich person] |})).
Proof.
  split.
  - intros p f w Hf. split; [apply mock_enrich; assumption|].
    repeat split. apply (f_equal negb (mock_email_not_empty f)).
  - intros person s.
    destruct person as [ | b | n | t | l | p ];
      try (right; apply process_person_enrich_raises;
           apply mock_enrich_not_dict; intros p; discriminate).
    destruct (first_name_of p) as [f|] eqn:Hf.
    + left. exists p, f.
      destruct (mock_process_person p f s Hf) as (w' & ->).
      repeat split; assumption.
    + right. apply process_person_enrich_raises.
      apply mock_enrich_raises. assumption.
Qed.
End Simulated.

(** ** Configuration *)

Lemma truthy_py_and (a b : pyval) :
  truthy (Config.py_and a b) = truthy a && truthy b.
Proof.
  unfold Config.py_and. destruct (truthy a) eqn:Ha; [reflexivity | exact Ha].
Qed.

Lemma provided_getenv (env : Config.environ) (name : string) :
  Config.provided env name = truthy (PStr (Config.getenv env name "")).
Proof.
  unfold Config.provided, Config.getenv. destruct (env name); reflexivity.
Qed.

(** Mock mode is off exactly when all six variables are provided. *)
Lemma mock_flag (env : Config.environ) :
  Config.mock (Config.load_from_env env)
    = negb (forallb (Config.provided env) Config.required).
Proof.
  unfold Config.load_from_env; cbn [Config.mock Config.required forallb].
  rewrite !truthy_py_and, !provided_getenv, andb_true_r, !andb_assoc.
  reflexivity.
Qed.

(** C8.  Loading the configuration always yields a configuration; its [mock]
    flag is false exactly when all six credentials are set and non-empty; and
    when one of them is missing or empty the flag is true, each of the five
    adapters built from the configuration carries it, and each of their
    methods returns its fixed sample value, touching the world by one log
    record only. *)
Theorem missing_credential_means_simulated (env : Config.environ) :
  let cfg := Config.load_from_env env in
  (Config.mock cfg = false <->
     forall k, In k Config.required -> Config.provided env k = true) /\
  ((exists k, In k Config.required /\ Config.provided env k = false) ->
   Config.mock cfg = true /\
   PhantombusterClient.mock (PhantombusterClient.init cfg) = true /\
   DropcontactClient.mock (DropcontactClient.init cfg) = true /\
   AirtableClient.mock (AirtableClient.init cfg) = true /\
   LemlistClient.mock (LemlistClient.init cfg) = true /\
   HubspotClient.mock (HubspotClient.init cfg) = true /\
   forall (W : Type) (L : Logging W) (rt : Runtime),
     simulated rt (make_clients rt cfg)).
Proof.
  intros cfg.
  assert (Hflag : Config.mock cfg = false <->
                  forall k, In k Config.required -> Config.provided env k = true).
  { subst cfg. rewrite mock_flag, negb_false_iff. apply forallb_forall. }
  split; [exact Hflag|].
  intros (k & Hin & Hk).
  assert (Hmock : Config.mock cfg = true).
  { destruct (Config.mock cfg) eqn:Hm; [reflexivity|].
    rewrite (proj1 Hflag eq_refl k Hin) in Hk. discriminate. }
  repeat (split; [exact Hmock|]).
  intros W L rt. apply mock_clients_simulated. exact Hmock.
Qed.

(** ** Scenarios *)

(** C2.  When the lookup of a resolvable email returns the empty sequence,
    [process_person] calls [create_record] exactly once and [update_record]
    not at all, and the created field-set has the keys Name, Account,
    Company website, Email, Phone and LinkedIn, with Name the enriched
    full_name.  In simulated mode the record is created when its email
    contains "new" and updated when it does not. *)
Theorem create_when_email_unknown :
  (forall (W : Type) (L : Logging W) (clients : Clients W) (cfg : Config.t)
          (person : pyval) (s : state W) (d : items) (w1 w2 : W) (email : pyval),
     enrich (dropcontact clients) person (world s) = (Ok (PDict d), w1) ->
     primary_email (PDict d) = Ok email ->
     truthy email = true ->
     list_records_matching_email (airtable clients) email (logged_enriched d email w1)
       = (Ok (PList []), w2) ->
     exists fields,
       create_fields (PDict d) email = Ok fields /\
       created (calls (snd (process_person person clients cfg s)))
         = created (calls s) ++ [fields] /\
       updated (calls (snd (process_person person clients cfg s))) = updated (calls s) /\
       keys fields
         = ["Name"; "Account"; "Company website"; "Email"; "Phone"; "LinkedIn"] /\
       get fields "Name" = get (PDict d) "full_name" /\
       get fields "Email" = Ok email) /\
  (forall (W : Type) (L : Logging W) (rt : Runtime) (cfg : Config.t)
          (p : items) (f : string) (s : state W),
     Config.mock cfg = true ->
     first_name_of p = Some f ->
     let email := PStr (mock_email rt f) in
     let after := calls (snd (process_person (PDict p) (make_clients rt cfg) cfg s)) in
     In (ListRecordsMatchingEmail email) after /\
     (substring_of "new" (mock_email rt f) = true ->
      created after = created (calls s) ++ [create_set (mock_profile rt p f) email] /\
      updated after = updated (calls s)) /\
     (substring_of "new" (mock_email rt f) = false ->
      created after = created (calls s) /\
      updated after
        = updated (calls s) ++ [(PStr "rec123", update_set (mock_profile rt p f) email)])).
Proof.
  split.
  - intros W L clients cfg person s d w1 w2 email Henrich Hemail Htruthy Hlist.
    exists (create_set d email).
    destruct (create_branch_calls clients cfg person s d w1 w2 email (PList []))
      as [Hcreated Hupdated]; try assumption; try reflexivity.
    repeat split; assumption.
  - intros W L rt cfg p f s Hmock Hf email after.
    destruct (mock_process_person rt cfg Hmock p f s Hf) as (w' & Hrun).
    subst after. rewrite Hrun. cbn [snd calls]. unfold mock_calls.
    split; [apply in_or_app; right; right; left; reflexivity|].
    split; intros ->; read_calls; split; reflexivity.
Qed.

(** C6.  In simulated mode the commenter Ada Lovelace is enriched to the email
    "ada@example.com"; the store lookup of that email returns the single
    match "rec123"; and [process_person] then calls [update_record] on
    "rec123", [add_lead] and [upsert_contact], each once and in this order,
    and returns. *)
Theorem ada_scenario (W : Type) (L : Logging W) (rt : Runtime) (cfg : Config.t)
    (s : state W) :
  Config.mock cfg = true ->
  lower rt "Ada" = "ada" ->
  let clients := make_clients rt cfg in
  (exists profile,
     enrich (dropcontact clients) (PDict ada) (world s) = (Ok profile, world s) /\
     primary_email profile = Ok (PStr "ada@example.com")) /\
  (forall w,
     fst (list_records_matching_email (airtable clients) (PStr "ada@example.com") w)
       = Ok (PList [PDict [("id", PStr "rec123");
                           ("fields", PDict [("Email", PStr "ada@example.com")])]])) /\
  fst (process_person (PDict ada) clients cfg s) = Ok tt /\
  calls (snd (process_person (PDict ada) clients cfg s))
    = calls s ++
      [ Enrich (PDict ada);
        ListRecordsMatchingEmail (PStr "ada@example.com");
        UpdateRecord (PStr "rec123")
          (PDict [ ("Email", PStr "ada@example.com");
                   ("Phone", PStr "");
                   ("LinkedIn", PStr "https://linkedin.example/ada");
                   ("Account", PStr "Example Ltd");
                   ("Company website", PStr "https://example.com") ]);
        AddLead
          (PDict [ ("email", PStr "ada@example.com");
                   ("firstName", PStr "Ada");
                   ("lastName", PStr "Lovelace");
                   ("companyName", PStr "Example Ltd") ]);
        UpsertContact
          (PDict [ ("email", PStr "ada@example.com");
                   ("firstName", PStr "Ada");
                   ("lastName", PStr "Lovelace");
                   ("company", PStr "Example Ltd");
                   ("phone", PStr "") ]) ].
Proof.
  intros Hmock Hlower clients. subst clients.
  assert (Hemail : mock_email rt "Ada" = "ada@example.com").
  { unfold mock_email. rewrite Hlower. reflexivity. }
  split; [|split].
  - exists (PDict (mock_profile rt ada "Ada")). split.
    + apply mock_enrich; [assumption | reflexivity].
    + rewrite mock_primary_email, Hemail. reflexivity.
  - intros w. rewrite mock_list_records by assumption. reflexivity.
  - destruct (mock_process_person rt cfg Hmock ada "Ada" s eq_refl) as (w' & ->).
    cbn [fst snd calls]. split; [reflexivity|].
    unfold mock_calls. rewrite Hemail. reflexivity.
Qed.

(** ** Instances on the sample data *)

(** A commenter whose first name came back as [None] from the feed: the
    simulated enrichment raises instead of returning a profile, and
    [process_person] raises with it. *)
Lemma enrich_raises_on_null_first_name :
  enrich (dropcontact sample_clients)
    (PDict [("first_name", PNone); ("last_name", PStr "Lovelace")]) []
    = (Raise AttributeError, []) /\
  process_person (PDict [("first_name", PNone); ("last_name", PStr "Lovelace")])
    sample_clients mock_cfg fresh
    = (Raise AttributeError,
       {| world := [];
          calls := [Enrich (PDict [("first_name", PNone);
                                   ("last_name", PStr "Lovelace")])] |}).
Proof. split; reflexivity. Qed.

(** In real mode the enrichment returns an empty profile: Ada is skipped. *)
Lemma no_email_no_downstream_calls_witness :
  fst (process_person (PDict ada) real_clients real_cfg fresh) = Ok tt /\
  calls (snd (process_person (PDict ada) real_clients real_cfg fresh))
    = calls fresh ++ [Enrich (PDict ada)] /\
  downstream (calls (snd (process_person (PDict ada) real_clients real_cfg fresh)))
    = downstream (calls fresh).
Proof.
  eapply (no_email_no_downstream_calls real_clients real_cfg (PDict ada) fresh []).
  - reflexivity.
  - left; reflexivity.
Defined.

(** An enrichment whose only email entry is the empty string. *)
Lemma falsy_email_is_skipped_witness :
  let d := [("email", PList [PDict [("email", PStr "")]])] in
  let run := process_person (PDict ada) (clients_enriching_to (PDict d)) mock_cfg fresh in
  exists email,
    primary_email (PDict d) = Ok email /\
    truthy email = false /\
    run = (Ok tt, {| world := logged_skip (logged_enriched d email []);
                     calls := calls fresh ++ [Enrich (PDict ada)] |}) /\
    downstream (calls (snd run)) = downstream (calls fresh).
Proof.
  cbv zeta.
  eapply (falsy_email_is_skipped
            (clients_enriching_to (PDict [("email", PList [PDict [("email", PStr "")]])]))
            mock_cfg (PDict ada) fresh
            [("email", PList [PDict [("email", PStr "")]])]
            [("email", PStr "")] [] []).
  - reflexivity.
  - right; right; right. split; reflexivity.
Defined.

(** Ada's email is known to the simulated store: her record is updated. *)
Lemma update_when_match_exists_witness :
  let d := mock_profile ascii_runtime ada "Ada" in
  let email := PStr "ada@example.com" in
  let after := calls (snd (process_person (PDict ada) sample_clients mock_cfg fresh)) in
  exists fields,
    update_fields (PDict d) email = Ok fields /\
    updated after = updated (calls fresh) ++ [(PStr "rec123", fields)] /\
    created after = created (calls fresh) /\
    keys fields = ["Email"; "Phone"; "LinkedIn"; "Account"; "Company website"] /\
    ~ In "Name" (keys fields).
Proof.
  cbv zeta.
  eapply (update_when_match_exists sample_clients mock_cfg (PDict ada) fresh
            (mock_profile ascii_runtime ada "Ada") _ _ (PStr "ada@example.com")
            (mock_match (PStr "ada@example.com")) (PStr "rec123") []).
  - reflexivity.
  - reflexivity.
  - reflexivity.
  - reflexivity.
  - reflexivity.
Defined.

(** Newton's email contains "new": his record is created, in the general
    statement and in the simulated one. *)
Lemma create_when_email_unknown_witness :
  let d := mock_profile ascii_runtime newton "Newton" in
  let email := PStr "newton@example.com" in
  let after := calls (snd (process_person (PDict newton) sample_clients mock_cfg fresh)) in
  (exists fields,
     create_fields (PDict d) email = Ok fields /\
     created after = created (calls fresh) ++ [fields] /\
     updated after = updated (calls fresh) /\
     keys fields = ["Name"; "Account"; "Company website"; "Email"; "Phone"; "LinkedIn"] /\
     get fields "Name" = get (PDict d) "full_name" /\
     get fields "Email" = Ok email) /\
  created after = created (calls fresh) ++ [create_set d email].
Proof.
  cbv zeta. split.
  - eapply (proj1 create_when_email_unknown (list log_record) log_list
              sample_clients mock_cfg (PDict newton) fresh
              (mock_profile ascii_runtime newton "Newton") _ _
              (PStr "newton@example.com")).
    + reflexivity.
    + reflexivity.
    + reflexivity.
    + reflexivity.
  - eapply (proj2 create_when_email_unknown (list log_record) log_list
              ascii_runtime mock_cfg newton "Newton" fresh).
    + reflexivity.
    + reflexivity.
    + reflexivity.
Defined.

(** With the outreach and CRM wrappers returning [False], both are still
    called once for Ada. *)
Lemma fan_out_exactly_once_witness :
  let d := mock_profile ascii_runtime ada "Ada" in
  let email := PStr "ada@example.com" in
  let after :=
    calls (snd (process_person (PDict ada) failing_fan_out_clients mock_cfg fresh)) in
  leads_added after = leads_added (calls fresh) ++ [lead_of d email] /\
  contacts_upserted after = contacts_upserted (calls fresh) ++ [contact_of d email] /\
  get (lead_of d email) "email" = Ok email /\
  get (contact_of d email) "email" = Ok email.
Proof.
  cbv zeta.
  eapply (fan_out_exactly_once failing_fan_out_clients mock_cfg (PDict ada) fresh
            (mock_profile ascii_runtime ada "Ada") _ _ _ _ (PStr "ada@example.com")
            (PList [mock_match (PStr "ada@example.com")])
            (mock_match (PStr "ada@example.com")) (PStr "rec123")
            (PDict [("id", PStr "rec123");
                    ("fields", update_set (mock_profile ascii_runtime ada "Ada")
                                 (PStr "ada@example.com"))])
            (PBool false)).
  - reflexivity.
  - reflexivity.
  - reflexivity.
  - reflexivity.
  - intros _. split; reflexivity.
  - reflexivity.
  - reflexivity.
Defined.

(** Alan, processed twice against the simulated store. *)
Lemma repeated_email_updates_twice_witness :
  let d := mock_profile ascii_runtime alan "Alan" in
  let email := PStr "alan@example.com" in
  let twice := process_person (PDict alan) sample_clients mock_cfg ;;
               process_person (PDict alan) sample_clients mock_cfg in
  fst (twice fresh) = Ok tt /\
  (exists id1 id2,
     updated (calls (snd (twice fresh)))
       = updated (calls fresh) ++ [(id1, update_set d email); (id2, update_set d email)]) /\
  created (calls (snd (twice fresh))) = created (calls fresh).
Proof.
  eapply (repeated_email_updates_twice sample_clients mock_cfg (PDict alan) fresh
            (mock_profile ascii_runtime alan "Alan") (PStr "alan@example.com")).
  - intros w. eexists. reflexivity.
  - reflexivity.
  - reflexivity.
  - intros w. eexists. eexists. eexists. eexists. split; reflexivity.
  - intros rec_id w. eexists. eexists. reflexivity.
  - intros w. eexists. eexists. reflexivity.
  - intros w. eexists. eexists. reflexivity.
Defined.

(** The scenario on the clients [main] builds without credentials. *)
Lemma ada_scenario_witness :
  fst (process_person (PDict ada) sample_clients mock_cfg fresh) = Ok tt /\
  updated (calls (snd (process_person (PDict ada) sample_clients mock_cfg fresh)))
    = [(PStr "rec123",
        PDict [ ("Email", PStr "ada@example.com");
                ("Phone", PStr "");
                ("LinkedIn", PStr "https://linkedin.example/ada");
                ("Account", PStr "Example Ltd");
                ("Company website", PStr "https://example.com") ])].
Proof.
  destruct (ada_scenario (list log_record) log_list ascii_runtime mock_cfg fresh
              eq_refl eq_refl) as (_ & _ & Hreturn & Hcalls).
  split; [exact Hreturn|]. unfold sample_clients. rewrite Hcalls. reflexivity.
Defined.

(** The cycle on the sample feed of simulated mode. *)
Lemma run_cycle_three_records_then_trigger_witness :
  exists commenter_calls liker_calls,
    calls (snd (run_cycle sample_clients mock_cfg fresh))
      = calls fresh ++ [FetchPostCommenters; Sleep 30] ++ commenter_calls ++
        [FetchPostLikers] ++ liker_calls ++ [TriggerNextPhantom] /\
    enriched_persons commenter_calls = [PDict ada; PDict alan] /\
    enriched_persons liker_calls = [PDict grace] /\
    ~ In TriggerNextPhantom commenter_calls /\
    ~ In TriggerNextPhantom liker_calls.
Proof.
  eapply (run_cycle_three_records_then_trigger sample_clients mock_cfg fresh
            (PDict ada) (PDict alan) (PDict grace)).
  - intros w. eexists. reflexivity.
  - intros w. eexists. reflexivity.
  - intros p Hin s.
    destruct Hin as [<- | [<- | [<- | []]]];
      [ destruct (mock_process_person ascii_runtime mock_cfg eq_refl ada "Ada" s eq_refl)
          as (w' & Hrun)
      | destruct (mock_process_person ascii_runtime mock_cfg eq_refl alan "Alan" s eq_refl)
          as (w' & Hrun)
      | destruct (mock_process_person ascii_runtime mock_cfg eq_refl grace "Grace" s eq_refl)
          as (w' & Hrun) ];
      unfold sample_clients; rewrite Hrun; reflexivity.
Defined.

Lemma missing_credential_means_simulated_witness :
  Config.mock mock_cfg = true /\ simulated ascii_runtime sample_clients.
Proof.
  destruct (missing_credential_means_simulated empty_env) as [_ Hsimulated].
  destruct Hsimulated as (Hmock & _ & _ & _ & _ & _ & Hall).
  - exists "PHANTOMBUSTER_API_KEY". split; [left; reflexivity | reflexivity].
  - split; [exact Hmock | apply Hall].
Defined.

Lemma simulated_enrichment_has_email_witness :
  enrich (dropcontact sample_clients) (PDict grace) []
    = (Ok (PDict (mock_profile ascii_runtime grace "Grace")), []) /\
  primary_email (PDict (mock_profile ascii_runtime grace "Grace"))
    = Ok (PStr "grace@example.com").
Proof.
  destruct (proj1 (simulated_enrichment_has_email ascii_runtime mock_cfg eq_refl)
              grace "Grace" ([] : list log_record) eq_refl)
    as (Henrich & _ & Hemail & _).
  split; [exact Henrich | exact Hemail].
Defined.

(** * Further properties of the orchestration *)

Section RecordFacts.
Context {W : Type} `{Logging W}.
Variable clients : Clients W.
Variable cfg : Config.t.

Lemma record_tail_prefix (d : items) (email : pyval) (store : call) (n : nat) :
  store = CreateRecord (create_set d email) \/
  (exists rec_id, store = UpdateRecord rec_id (update_set d email)) ->
  record_tail (firstn n [ ListRecordsMatchingEmail email; store;
                          AddLead (lead_of d email);
                          UpsertContact (contact_of d email) ]).
Proof.
  intros Hstore.
  destruct Hstore as [-> | (rec_id & ->)];
    [ exists email, (create_set d email), (lead_of d email), (contact_of d email),
        (CreateRecord (create_set d email)), n
    | exists email, (update_set d email), (lead_of d email), (contact_of d email),
        (UpdateRecord rec_id (update_set d email)), n ];
    repeat split; reflexivity.
Qed.

Lemma record_tail_nil : record_tail [].
Proof.
  apply (record_tail_prefix [] PNone (CreateRecord (create_set [] PNone)) 0).
  left; reflexivity.
Qed.

(** X1.  Whatever the clients return or raise, the calls of one record are
    [enrich] on that record followed by a prefix of: one lookup, one store
    write (a create or an update, never both), [add_lead], [upsert_contact],
    in this order and all with the email that was looked up. *)
Theorem process_person_call_shape (person : pyval) (s : state W) :
  exists rest,
    calls (snd (process_person person clients cfg s)) = calls s ++ Enrich person :: rest /\
    record_tail rest.
Proof.
  enter_process_person.
  destruct (enrich (dropcontact clients) person (world s)) as [[enriched|e] w1];
    cbn [world calls snd];
    [|exists []; split; [reflexivity | exact record_tail_nil]].
  destruct (primary_email enriched) as [email|e] eqn:Hemail;
    [|exists []; split; [reflexivity | exact record_tail_nil]].
  destruct (primary_email_dict _ _ Hemail) as (d & ->).
  rewrite get_dict. run_logging.
  destruct (truthy email); cbn [negb snd calls];
    [|exists []; split; [reflexivity | exact record_tail_nil]].
  destruct (list_records_matching_email _ _ _) as [[existing|e] w2];
    cbn [world calls snd];
    [|exists (firstn 1 [ ListRecordsMatchingEmail email;
                         CreateRecord (create_set d email);
                         AddLead (lead_of d email);
                         UpsertContact (contact_of d email) ]);
      rewrite <- app_assoc; split; [reflexivity | apply record_tail_prefix; auto]].
  rewrite update_fields_dict, create_fields_dict, lemlist_lead_dict, hubspot_contact_dict.
  destruct (truthy existing).
  - destruct (index0 existing) as [entry|e];
      [destruct (getitem entry "id") as [rec_id|e]|];
      try (exists (firstn 1 [ ListRecordsMatchingEmail email;
                              CreateRecord (create_set d email);
                              AddLead (lead_of d email);
                              UpsertContact (contact_of d email) ]);
           rewrite <- app_assoc; split; [reflexivity | apply record_tail_prefix; auto]).
    call_cases; rewrite <- ?app_assoc; cbn [app];
      [ exists (firstn 4 [ ListRecordsMatchingEmail email;
                           UpdateRecord rec_id (update_set d email);
                           AddLead (lead_of d email);
                           UpsertContact (contact_of d email) ])
      | exists (firstn 4 [ ListRecordsMatchingEmail email;
                           UpdateRecord rec_id (update_set d email);
                           AddLead (lead_of d email);
                           UpsertContact (contact_of d email) ])
      | exists (firstn 3 [ ListRecordsMatchingEmail email;
                           UpdateRecord rec_id (update_set d email);
                           AddLead (lead_of d email);
                           UpsertContact (contact_of d email) ])
      | exists (firstn 2 [ ListRecordsMatchingEmail email;
                           UpdateRecord rec_id (update_set d email);
                           AddLead (lead_of d email);
                           UpsertContact (contact_of d email) ]) ];
      (split; [reflexivity | apply record_tail_prefix; right; eexists; reflexivity]).
  - call_cases; rewrite <- ?app_assoc; cbn [app];
      [ exists (firstn 4 [ ListRecordsMatchingEmail email;
                           CreateRecord (create_set d email);
                           AddLead (lead_of d email);
                           UpsertContact (contact_of d email) ])
      | exists (firstn 4 [ ListRecordsMatchingEmail email;
                           CreateRecord (create_set d email);
                           AddLead (lead_of d email);
                           UpsertContact (contact_of d email) ])
      | exists (firstn 3 [ ListRecordsMatchingEmail email;
                           CreateRecord (create_set d email);
                           AddLead (lead_of d email);
                           UpsertContact (contact_of d email) ])
      | exists (firstn 2 [ ListRecordsMatchingEmail email;
                           CreateRecord (create_set d email);
                           AddLead (lead_of d email);
                           UpsertContact (contact_of d email) ]) ];
      (split; [reflexivity | apply record_tail_prefix; left; reflexivity]).
Qed.

(** X2.  An exception raised by the store write leaves [process_person] at
    once: it is raised to the caller, and neither [add_lead] nor
    [upsert_contact] is called for the record. *)
Theorem store_failure_stops_the_record (person : pyval) (s : state W) (d : items)
    (w1 w2 w3 : W) (email existing entry rec_id : pyval) (e : exn) :
  enrich (dropcontact clients) person (world s) = (Ok (PDict d), w1) ->
  primary_email (PDict d) = Ok email ->
  truthy email = true ->
  list_records_matching_email (airtable clients) email (logged_enriched d email w1)
    = (Ok existing, w2) ->
  (truthy existing = true ->
     index0 existing = Ok entry /\ getitem entry "id" = Ok rec_id) ->
  store_method clients d email existing rec_id w2 = (Raise e, w3) ->
  process_person person clients cfg s
    = (Raise e,
       {| world := w3;
          calls := calls s ++ [ Enrich person; ListRecordsMatchingEmail email;
                                store_call d email existing rec_id ] |}) /\
  leads_added (calls (snd (process_person person clients cfg s)))
    = leads_added (calls s) /\
  contacts_upserted (calls (snd (process_person person clients cfg s)))
    = contacts_upserted (calls s).
Proof.
  intros Henrich Hemail Htruthy Hlist Hshape Hstore.
  assert (Hrun : process_person person clients cfg s
                 = (Raise e,
                    {| world := w3;
                       calls := calls s ++ [ Enrich person; ListRecordsMatchingEmail email;
                                             store_call d email existing rec_id ] |})).
  { rewrite (process_person_lookup _ _ _ _ _ _ _ _ _ Henrich Hemail Htruthy Hlist).
    unfold store_method, store_call in *.
    destruct (truthy existing) eqn:Hexisting.
    - destruct (Hshape eq_refl) as [Hentry Hid].
      unfold bind, invoke, lift; cbn [world calls]. rewrite Hentry, Hid, Hstore.
      rewrite <- app_assoc. reflexivity.
    - unfold bind, invoke, lift; cbn [world calls]. rewrite Hstore.
      rewrite <- app_assoc. reflexivity. }
  rewrite Hrun. cbn [snd calls]. split; [reflexivity|].
  unfold store_call. destruct (truthy existing); read_calls; split; reflexivity.
Qed.

(** X3.  An exception raised by [add_lead] is raised to the caller of
    [process_person], after the store write and without [upsert_contact]
    being called. *)
Theorem outreach_failure_skips_the_crm (person : pyval) (s : state W) (d : items)
    (w1 w2 w3 w4 : W) (email existing entry rec_id stored : pyval) (e : exn) :
  enrich (dropcontact clients) person (world s) = (Ok (PDict d), w1) ->
  primary_email (PDict d) = Ok email ->
  truthy email = true ->
  list_records_matching_email (airtable clients) email (logged_enriched d email w1)
    = (Ok existing, w2) ->
  (truthy existing = true ->
     index0 existing = Ok entry /\ getitem entry "id" = Ok rec_id) ->
  store_method clients d email existing rec_id w2 = (Ok stored, w3) ->
  add_lead (lemlist clients) (lead_of d email) w3 = (Raise e, w4) ->
  process_person person clients cfg s
    = (Raise e,
       {| world := w4;
          calls := calls s ++ [ Enrich person; ListRecordsMatchingEmail email;
                                store_call d email existing rec_id;
                                AddLead (lead_of d email) ] |}) /\
  contacts_upserted (calls (snd (process_person person clients cfg s)))
    = contacts_upserted (calls s).
Proof.
  intros Henrich Hemail Htruthy Hlist Hshape Hstore Hlead.
  assert (Hrun : process_person person clients cfg s
                 = (Raise e,
                    {| world := w4;
                       calls := calls s ++ [ Enrich person; ListRecordsMatchingEmail email;
                                             store_call d email existing rec_id;
                                             AddLead (lead_of d email) ] |})).
  { rewrite (process_person_lookup _ _ _ _ _ _ _ _ _ Henrich Hemail Htruthy Hlist).
    unfold store_method, store_call in *.
    destruct (truthy existing) eqn:Hexisting.
    - destruct (Hshape eq_refl) as [Hentry Hid].
      unfold bind, invoke, lift; cbn [world calls]. rewrite Hentry, Hid, Hstore.
      cbn [world calls]. rewrite Hlead. rewrite <- !app_assoc. reflexivity.
    - unfold bind, invoke, lift; cbn [world calls]. rewrite Hstore.
      cbn [world calls]. rewrite Hlead. rewrite <- !app_assoc. reflexivity. }
  rewrite Hrun. cbn [snd calls]. split; [reflexivity|].
  unfold store_call. destruct (truthy existing); read_calls; reflexivity.
Qed.

(** When the email cannot be extracted, the exception of the extraction is
    raised with [enrich] as the only call, before anything is logged. *)
Lemma process_person_extraction_raises (person : pyval) (s : state W)
    (enriched : pyval) (w1 : W) (e : exn) :
  enrich (dropcontact clients) person (world s) = (Ok enriched, w1) ->
  primary_email enriched = Raise e ->
  process_person person clients cfg s
    = (Raise e, {| world := w1; calls := calls s ++ [Enrich person] |}).
Proof.
  intros Henrich Hemail. enter_process_person. rewrite Henrich, Hemail. reflexivity.
Qed.

(** X4.  The email is read as the ['email'] item of the first entry of a
    list.  An enrichment whose ['email'] is a list with a first entry that is
    not a dictionary (a bare address, say), or is itself a non-empty string,
    makes [process_person] raise AttributeError, with [enrich] as its only
    call. *)
Theorem bare_email_raises (person : pyval) (s : state W) (d : items) (w1 : W)
    (first : pyval) (others : list pyval) (address : string) :
  enrich (dropcontact clients) person (world s) = (Ok (PDict d), w1) ->
  (lookup "email" d = Some (PList (first :: others)) /\
   forall entry, first <> PDict entry) \/
  (lookup "email" d = Some (PStr address) /\ address <> "") ->
  process_person person clients cfg s
    = (Raise AttributeError,
       {| world := w1; calls := calls s ++ [Enrich person] |}).
Proof.
  intros Henrich Hshape.
  apply process_person_extraction_raises with (enriched := PDict d); [assumption|].
  unfold primary_email, get, get_default.
  destruct Hshape as [[-> Hnot] | [-> Hnot]].
  - cbn [truthy py_or index0].
    destruct first; try reflexivity. exfalso. eapply Hnot. reflexivity.
  - destruct address as [|c rest]; [contradiction|]. reflexivity.
Qed.

(** X5.  A match that carries no ['id'] makes [process_person] raise KeyError
    right after the lookup: nothing is written to the store, and neither
    [add_lead] nor [upsert_contact] is called. *)
Theorem match_without_id_raises (person : pyval) (s : state W) (d entry : items)
    (w1 w2 : W) (email : pyval) (others : list pyval) :
  enrich (dropcontact clients) person (world s) = (Ok (PDict d), w1) ->
  primary_email (PDict d) = Ok email ->
  truthy email = true ->
  list_records_matching_email (airtable clients) email (logged_enriched d email w1)
    = (Ok (PList (PDict entry :: others)), w2) ->
  lookup "id" entry = None ->
  process_person person clients cfg s
    = (Raise KeyError,
       {| world := w2;
          calls := calls s ++ [Enrich person; ListRecordsMatchingEmail email] |}).
Proof.
  intros Henrich Hemail Htruthy Hlist Hid.
  rewrite (process_person_lookup _ _ _ _ _ _ _ _ _ Henrich Hemail Htruthy Hlist).
  cbn [truthy index0]. unfold bind, invoke, lift, getitem. rewrite Hid. reflexivity.
Qed.
End RecordFacts.

Section CycleFacts.
Context {W : Type} `{Logging W}.
Variable clients : Clients W.
Variable cfg : Config.t.

Lemma downstream_is_record_call (cs : list call) :
  forallb is_downstream cs = true -> forallb is_record_call cs = true.
Proof.
  induction cs as [|c cs IH]; cbn [forallb]; [reflexivity|].
  intros Hall. apply andb_prop in Hall. destruct Hall as [Hc Hcs].
  rewrite (IH Hcs), andb_true_r. destruct c; try discriminate; reflexivity.
Qed.

Lemma downstream_enriches_nobody (cs : list call) :
  forallb is_downstream cs = true -> enriched_persons cs = [].
Proof.
  induction cs as [|c cs IH]; cbn [forallb]; [reflexivity|].
  intros Hall. apply andb_prop in Hall. destruct Hall as [Hc Hcs].
  destruct c; try discriminate; exact (IH Hcs).
Qed.

(** One record, as seen from the loop over a batch. *)
Lemma process_person_record_calls (p : pyval) (s : state W) :
  exists cs,
    calls (snd (process_person p clients cfg s)) = calls s ++ cs /\
    enriched_persons cs = [p] /\
    forallb is_record_call cs = true.
Proof.
  destruct (process_person_calls clients cfg p s) as (rest & Hcalls & Hdown).
  exists (Enrich p :: rest). split; [exact Hcalls|]. split.
  - unfold enriched_persons. cbn [flat_map app]. fold (enriched_persons rest).
    rewrite (downstream_enriches_nobody rest Hdown). reflexivity.
  - cbn [forallb is_record_call]. apply downstream_is_record_call. exact Hdown.
Qed.

(** A batch whose records are all processed to the end. *)
Lemma for_each_records (ps : list pyval) :
  (forall p, In p ps -> forall s, fst (process_person p clients cfg s) = Ok tt) ->
  forall s, exists s' cs,
    for_each ps (fun p => process_person p clients cfg) s = (Ok tt, s') /\
    calls s' = calls s ++ cs /\
    enriched_persons cs = ps /\
    forallb is_record_call cs = true.
Proof.
  induction ps as [|p ps IH]; intros Hok s.
  - exists s, []. cbn. rewrite app_nil_r. repeat split.
  - destruct (process_person_record_calls p s) as (c1 & Hcalls & Hone & Hshape).
    pose proof (Hok p (or_introl eq_refl) s) as Hp.
    destruct (process_person p clients cfg s) as [r s1] eqn:Hrun.
    cbn [fst snd] in Hp, Hcalls. subst r.
    destruct (IH (fun q Hq => Hok q (or_intror Hq)) s1)
      as (s2 & cs & Hrest & Hcs & Hps & Hall).
    exists s2, (c1 ++ cs).
    cbn [for_each]. unfold bind at 1. rewrite Hrun, Hrest.
    split; [reflexivity|]. split; [|split].
    + rewrite Hcs, Hcalls, <- app_assoc. reflexivity.
    + unfold enriched_persons in *. rewrite flat_map_app, Hone, Hps. reflexivity.
    + rewrite forallb_app, Hshape, Hall. reflexivity.
Qed.

(** A batch with a record whose processing raises: the records before it are
    processed, the ones after it are not. *)
Lemma for_each_stops_at_failure (before after : list pyval) (c : pyval) (e : exn) :
  (forall p, In p before -> forall s, fst (process_person p clients cfg s) = Ok tt) ->
  (forall s, fst (process_person c clients cfg s) = Raise e) ->
  forall s, exists s' cs,
    for_each (before ++ c :: after) (fun p => process_person p clients cfg) s
      = (Raise e, s') /\
    calls s' = calls s ++ cs /\
    enriched_persons cs = before ++ [c] /\
    forallb is_record_call cs = true.
Proof.
  intros Hok Hfail.
  induction before as [|p before IH]; intros s.
  - destruct (process_person_record_calls c s) as (c1 & Hcalls & Hone & Hshape).
    pose proof (Hfail s) as Hc.
    destruct (process_person c clients cfg s) as [r s1] eqn:Hrun.
    cbn [fst snd] in Hc, Hcalls. subst r.
    exists s1, c1. cbn [app for_each]. unfold bind at 1. rewrite Hrun.
    repeat split; assumption.
  - destruct (process_person_record_calls p s) as (c1 & Hcalls & Hone & Hshape).
    pose proof (Hok p (or_introl eq_refl) s) as Hp.
    destruct (process_person p clients cfg s) as [r s1] eqn:Hrun.
    cbn [fst snd] in Hp, Hcalls. subst r.
    destruct (IH (fun q Hq => Hok q (or_intror Hq)) s1)
      as (s2 & cs & Hrest & Hcs & Hps & Hall).
    exists s2, (c1 ++ cs).
    cbn [app for_each]. unfold bind at 1. rewrite Hrun. cbn [app] in Hrest. rewrite Hrest.
    split; [reflexivity|]. split; [|split].
    + rewrite Hcs, Hcalls, <- app_assoc. reflexivity.
    + unfold enriched_persons in *. rewrite flat_map_app, Hone, Hps. reflexivity.
    + rewrite forallb_app, Hshape, Hall. reflexivity.
Qed.

(** The cycle as far as the loop over the commenters. *)
Lemma run_cycle_until_commenters (s : state W) (commenters : list pyval) (w1 : W) :
  fetch_post_commenters (phantombuster clients)
    (emit (INFO, "=== Run cycle started ===", []) (world s))
    = (Ok (PList commenters), w1) ->
  run_cycle clients cfg s =
    (for_each commenters (fun p => process_person p clients cfg) ;;
     likers <- invoke FetchPostLikers (fetch_post_likers (phantombuster clients)) ;;
     m <- lift (len likers) ;;
     logging (log_info "Fetched {} likers" [PInt m]) ;;
     qs <- lift (iter likers) ;;
     for_each qs (fun p => process_person p clients cfg) ;;
     invoke TriggerNextPhantom (trigger_next_phantom (phantombuster clients)) ;;
     logging (log_info "=== Run cycle finished ===" []) ;;
     ret tt)
      {| world :=
           emit (INFO, "Fetched {} commenters",
                 [PInt (Z.of_nat (List.length commenters))])
             (emit (INFO, "Waiting 30 seconds to mimic n8n 'Wait 30s' node", []) w1);
         calls := calls s ++ [FetchPostCommenters; Sleep 30] |}.
Proof.
  intros Hfetch.
  unfold run_cycle; cbv zeta.
  unfold bind at 1, logging at 1, log_info at 1, modify at 1. cbn [world calls].
  unfold bind at 1, invoke at 1. cbn [world calls]. rewrite Hfetch.
  unfold bind at 1, logging at 1, log_info at 1, modify at 1. cbn [world calls].
  unfold bind at 1, sleep at 1. cbn [world calls].
  unfold bind at 1, lift at 1. cbn [len].
  unfold bind at 1, logging at 1, log_info at 1, modify at 1. cbn [world calls].
  unfold bind at 1, lift at 1. cbn [iter].
  rewrite <- app_assoc. reflexivity.
Qed.

(** X6.  One cycle over any feed whose records are all processed to the end:
    every commenter, then every liker, is handed to [process_person] exactly
    once and in feed order; the 30 second pause is made once, after the
    commenters are fetched and before the first of them is processed; the
    likers are fetched only after the last commenter; the trigger is the last
    call.  An empty feed still pauses and triggers. *)
Theorem run_cycle_processes_the_feed (s : state W) (commenters likers : list pyval) :
  (forall w, exists w',
     fetch_post_commenters (phantombuster clients) w = (Ok (PList commenters), w')) ->
  (forall w, exists w',
     fetch_post_likers (phantombuster clients) w = (Ok (PList likers), w')) ->
  (forall p, In p (commenters ++ likers) ->
     forall s, fst (process_person p clients cfg s) = Ok tt) ->
  exists commenter_calls liker_calls,
    calls (snd (run_cycle clients cfg s))
      = calls s ++ [FetchPostCommenters; Sleep 30] ++ commenter_calls ++
        [FetchPostLikers] ++ liker_calls ++ [TriggerNextPhantom] /\
    enriched_persons commenter_calls = commenters /\
    enriched_persons liker_calls = likers /\
    forallb is_record_call commenter_calls = true /\
    forallb is_record_call liker_calls = true.
Proof.
  intros Hcommenters Hlikers Hok.
  destruct (Hcommenters (emit (INFO, "=== Run cycle started ===", []) (world s)))
    as (w1 & Hfetch).
  rewrite (run_cycle_until_commenters s commenters w1 Hfetch).
  unfold bind at 1.
  match goal with
  | |- context [for_each commenters _ ?st] =>
      destruct (for_each_records commenters
                  (fun p Hp => Hok p (in_or_app commenters likers p (or_introl Hp))) st)
        as (s2 & cs & -> & Hcs & Hps & Hall)
  end.
  cbn [calls] in Hcs.
  unfold bind at 1, invoke at 1.
  destruct (Hlikers (world s2)) as (w3 & ->).
  unfold bind at 1, lift at 1. cbn [len].
  unfold bind at 1, logging at 1, log_info at 1, modify at 1. cbn [world calls].
  unfold bind at 1, lift at 1. cbn [iter].
  unfold bind at 1.
  match goal with
  | |- context [for_each likers _ ?st] =>
      destruct (for_each_records likers
                  (fun p Hp => Hok p (in_or_app commenters likers p (or_intror Hp))) st)
        as (s4 & ls & -> & Hls & Hqs & Hall')
  end.
  cbn [calls] in Hls.
  exists cs, ls.
  split; [|repeat split; assumption].
  unfold bind, invoke, logging, log_info, modify, ret.
  destruct (trigger_next_phantom (phantombuster clients) (world s4)) as [[v|e] w5];
    cbn [snd calls]; rewrite Hls, Hcs, <- !app_assoc; reflexivity.
Qed.

(** X7.  A commenter whose processing raises ends the cycle there: the
    exception is raised to the caller of [run_cycle]; the commenters after it
    are not processed, the likers are never fetched and the follow-up is
    never triggered. *)
Theorem failing_commenter_aborts_the_cycle (s : state W)
    (before after : list pyval) (c : pyval) (e : exn) :
  (forall w, exists w',
     fetch_post_commenters (phantombuster clients) w
       = (Ok (PList (before ++ c :: after)), w')) ->
  (forall p, In p before -> forall s, fst (process_person p clients cfg s) = Ok tt) ->
  (forall s, fst (process_person c clients cfg s) = Raise e) ->
  fst (run_cycle clients cfg s) = Raise e /\
  exists record_calls,
    calls (snd (run_cycle clients cfg s))
      = calls s ++ [FetchPostCommenters; Sleep 30] ++ record_calls /\
    enriched_persons record_calls = before ++ [c] /\
    forallb is_record_call record_calls = true.
Proof.
  intros Hcommenters Hok Hfail.
  destruct (Hcommenters (emit (INFO, "=== Run cycle started ===", []) (world s)))
    as (w1 & Hfetch).
  destruct (for_each_stops_at_failure before after c e Hok Hfail
              {| world :=
                   emit (INFO, "Fetched {} commenters",
                         [PInt (Z.of_nat (List.length (before ++ c :: after)))])
                     (emit (INFO, "Waiting 30 seconds to mimic n8n 'Wait 30s' node", [])
                        w1);
                 calls := calls s ++ [FetchPostCommenters; Sleep 30] |})
    as (s2 & cs & Hloop & Hcs & Hps & Hall).
  assert (Hrun : run_cycle clients cfg s = (Raise e, s2)).
  { rewrite (run_cycle_until_commenters s _ w1 Hfetch).
    unfold bind at 1. rewrite Hloop. reflexivity. }
  rewrite Hrun. cbn [calls fst snd] in *. split; [reflexivity|].
  exists cs. rewrite Hcs, <- app_assoc. repeat split; assumption.
Qed.

(** X8.  A feed that answers with something that has no length ([None], a
    boolean, a number) makes [run_cycle] raise TypeError after the pause:
    nothing is processed, the likers are not fetched, nothing is triggered. *)
Theorem feed_without_length_raises (s : state W) (answer : pyval) (w1 : W) :
  fetch_post_commenters (phantombuster clients)
    (emit (INFO, "=== Run cycle started ===", []) (world s))
    = (Ok answer, w1) ->
  answer = PNone \/ (exists b, answer = PBool b) \/ (exists n, answer = PInt n) ->
  run_cycle clients cfg s
    = (Raise TypeError,
       {| world := emit (INFO, "Waiting 30 seconds to mimic n8n 'Wait 30s' node", []) w1;
          calls := calls s ++ [FetchPostCommenters; Sleep 30] |}).
Proof.
  intros Hfetch Hanswer.
  unfold run_cycle; cbv zeta.
  unfold bind at 1, logging at 1, log_info at 1, modify at 1. cbn [world calls].
  unfold bind at 1, invoke at 1. cbn [world calls]. rewrite Hfetch.
  unfold bind at 1, logging at 1, log_info at 1, modify at 1. cbn [world calls].
  unfold bind at 1, sleep at 1. cbn [world calls].
  unfold bind at 1, lift at 1.
  destruct Hanswer as [-> | [(b & ->) | (n & ->)]];
    cbn [len]; rewrite <- app_assoc; reflexivity.
Qed.
End CycleFacts.

(** ** Real mode *)

Section RealMode.
Context {W : Type} `{Logging W}.
Variable rt : Runtime.
Variable cfg : Config.t.
Hypothesis Hreal : Config.mock cfg = false.

Lemma real_enrich (person : pyval) (w : W) :
  enrich (dropcontact (make_clients rt cfg)) person w
    = (Ok (PDict []), emit (INFO, not_implemented "[Dropcontact]", []) w).
Proof.
  cbn [make_clients dropcontact DropcontactClient.client enrich].
  unfold DropcontactClient.enrich, DropcontactClient.init; cbn [DropcontactClient.mock].
  rewrite Hreal. reflexivity.
Qed.

Lemma real_feed (w : W) :
  fetch_post_commenters (phantombuster (make_clients rt cfg)) w
    = (Ok (PList []), emit (INFO, not_implemented "[Phantombuster]", []) w) /\
  fetch_post_likers (phantombuster (make_clients rt cfg)) w
    = (Ok (PList []), emit (INFO, not_implemented "[Phantombuster]", []) w) /\
  trigger_next_phantom (phantombuster (make_clients rt cfg)) w
    = (Ok (PBool false),
       emit (INFO, "[Phantombuster] Real trigger not implemented", []) w).
Proof.
  cbn [make_clients phantombuster PhantombusterClient.client
       fetch_post_commenters fetch_post_likers trigger_next_phantom].
  unfold PhantombusterClient.fetch_post_commenters,
    PhantombusterClient.fetch_post_likers,
    PhantombusterClient.trigger_next_phantom, PhantombusterClient.init;
    cbn [PhantombusterClient.mock].
  rewrite Hreal. repeat split.
Qed.

(** A cycle in real mode: the feed is empty. *)
Lemma real_run_cycle (s : state W) :
  exists w',
    run_cycle (make_clients rt cfg) cfg s
      = (Ok tt, {| world := w'; calls := calls s ++ real_cycle_calls |}).
Proof.
  unfold run_cycle; cbv zeta.
  unfold bind, logging, log_info, modify, invoke, sleep, lift; cbn [world calls].
  rewrite (proj1 (real_feed _)). cbn [len iter for_each world calls ret].
  rewrite (proj1 (proj2 (real_feed _))). cbn [len iter for_each world calls ret].
  rewrite (proj2 (proj2 (real_feed _))). cbn [world calls ret].
  eexists. rewrite <- !app_assoc. reflexivity.
Qed.

(** X9.  In real mode (all credentials given) the enrichment answers every
    person, whatever it is, with an empty profile: [process_person] skips the
    record, making no call but [enrich], and returns. *)
Theorem real_mode_skips_every_record (person : pyval) (s : state W) :
  process_person person (make_clients rt cfg) cfg s
    = (Ok tt,
       {| world :=
            logged_skip
              (logged_enriched [] PNone
                 (emit (INFO, not_implemented "[Dropcontact]", []) (world s)));
          calls := calls s ++ [Enrich person] |}).
Proof.
  apply process_person_skip; [apply real_enrich | reflexivity | reflexivity].
Qed.

(** X17.  In real mode no adapter does anything but log that it is not
    implemented: whatever the arguments, no method raises, and each returns a
    falsy value (an empty list, an empty dictionary or [False]). *)
Theorem real_mode_adapters_report_nothing (a b : pyval) (w : W) :
  let clients := make_clients rt cfg in
  let quiet (service : string) (m : M W pyval) :=
    exists v, m w = (Ok v, emit (INFO, not_implemented service, []) w) /\
              truthy v = false in
  quiet "[Phantombuster]" (fetch_post_commenters (phantombuster clients)) /\
  quiet "[Phantombuster]" (fetch_post_likers (phantombuster clients)) /\
  trigger_next_phantom (phantombuster clients) w
    = (Ok (PBool false),
       emit (INFO, "[Phantombuster] Real trigger not implemented", []) w) /\
  quiet "[Dropcontact]" (enrich (dropcontact clients) a) /\
  quiet "[Airtable]" (list_records_matching_email (airtable clients) a) /\
  quiet "[Airtable]" (create_record (airtable clients) a) /\
  quiet "[Airtable]" (update_record (airtable clients) a b) /\
  quiet "[Lemlist]" (add_lead (lemlist clients) a) /\
  quiet "[HubSpot]" (upsert_contact (hubspot clients) a).
Proof.
  cbv zeta.
  cbn [make_clients phantombuster dropcontact airtable lemlist hubspot
       PhantombusterClient.client DropcontactClient.client AirtableClient.client
       LemlistClient.client HubspotClient.client
       fetch_post_commenters fetch_post_likers trigger_next_phantom enrich
       list_records_matching_email create_record update_record add_lead
       upsert_contact].
  unfold PhantombusterClient.fetch_post_commenters,
    PhantombusterClient.fetch_post_likers,
    PhantombusterClient.trigger_next_phantom, PhantombusterClient.init,
    DropcontactClient.enrich, DropcontactClient.init,
    AirtableClient.list_records_matching_email, AirtableClient.create_record,
    AirtableClient.update_record, AirtableClient.init,
    LemlistClient.add_lead, LemlistClient.init,
    HubspotClient.upsert_contact, HubspotClient.init;
    cbn [PhantombusterClient.mock DropcontactClient.mock AirtableClient.mock
         LemlistClient.mock HubspotClient.mock].
  rewrite Hreal.
  repeat match goal with |- _ /\ _ => split end;
    try reflexivity; eexists; split; reflexivity.
Qed.
End RealMode.

(** ** The driver *)

Section DriverFacts.
Context {W : Type} `{Logging W}.
Variable rt : Runtime.

(** A cycle of [main], whatever the environment: it returns, having made the
    calls of [cycle_calls]. *)
Lemma main_cycle (env : Config.environ) (s : state W) :
  exists w',
    run_cycle (make_clients rt (Config.load_from_env env)) (Config.load_from_env env) s
      = (Ok tt, {| world := w'; calls := calls s ++ cycle_calls rt env |}).
Proof.
  unfold cycle_calls.
  pose proof (mock_flag env) as Hflag.
  destruct (forallb (Config.provided env) Config.required); cbn [negb] in Hflag.
  - apply real_run_cycle. exact Hflag.
  - destruct (mock_run_cycle rt _ Hflag s) as (w' & Hrun).
    exists w'. rewrite Hrun. reflexivity.
Qed.

(** X10.  [main --once] never fails, whatever the environment holds.  With
    all six credentials set it fetches two empty batches, pauses and
    triggers, and nothing else: no record is enriched and nothing is written
    downstream.  With one of them missing it runs the simulated cycle over
    Ada, Alan and Grace. *)
Theorem main_once_calls (env : Config.environ) (s : state W) :
  fst (main_once rt env s) = Ok tt /\
  calls (snd (main_once rt env s))
    = calls s ++
      (if forallb (Config.provided env) Config.required
       then [FetchPostCommenters; Sleep 30; FetchPostLikers; TriggerNextPhantom]
       else [FetchPostCommenters; Sleep 30] ++
            mock_calls rt ada "Ada" ++ mock_calls rt alan "Alan" ++
            [FetchPostLikers] ++ mock_calls rt grace "Grace" ++
            [TriggerNextPhantom]).
Proof.
  unfold main_once; cbv zeta.
  destruct (main_cycle env s) as (w' & ->).
  split; reflexivity.
Qed.

Lemma loop_calls (env : Config.environ) (args : Args) (rounds : nat) :
  forall s : state W, exists w',
    loop rounds (make_clients rt (Config.load_from_env env)) (Config.load_from_env env)
      args s
    = (Ok tt,
       {| world := w';
          calls := calls s ++
                   concat (repeat (cycle_calls rt env ++
                                   [Sleep (interval_minutes args * 60)]) rounds) |}).
Proof.
  induction rounds as [|rounds IH]; intros s.
  - exists (world s). cbn. rewrite app_nil_r. destruct s; reflexivity.
  - cbn [loop]. unfold bind at 1.
    destruct (main_cycle env s) as (w1 & ->).
    unfold bind at 1, logging at 1, log_info at 1, modify at 1. cbn [world calls].
    unfold bind at 1, sleep at 1. cbn [world calls].
    match goal with
    | |- context [loop rounds _ _ _ ?st] => destruct (IH st) as (w2 & ->)
    end.
    exists w2. cbn [calls repeat concat]. rewrite <- !app_assoc. reflexivity.
Qed.

End DriverFacts.

(** ** The simulated store *)

Lemma prefix_spec (p s : string) :
  prefix p s = true <-> exists b, s = (p ++ b)%string.
Proof.
  revert s. induction p as [|a p IH]; intros s; cbn [prefix].
  - split; [intros _; exists s; reflexivity | reflexivity].
  - destruct s as [|c s]; [split; [discriminate | intros (b & Hb); discriminate]|].
    rewrite andb_true_iff, Ascii.eqb_eq, IH. split.
    + intros (-> & b & ->). exists b. reflexivity.
    + intros (b & Hb). cbn in Hb. injection Hb as -> ->. split; [reflexivity|].
      exists b. reflexivity.
Qed.

(** [substring_of p s] is Python's [p in s]: [s] is [a + p + b] for some [a]
    and [b]. *)
Lemma substring_of_spec (p s : string) :
  substring_of p s = true <-> exists a b, s = (a ++ p ++ b)%string.
Proof.
  induction s as [|c s IH].
  - cbn [substring_of]. rewrite orb_false_r, prefix_spec. split.
    + intros (b & Hb). exists "", b. exact Hb.
    + intros (a & b & Hab). destruct a as [|x a]; [|discriminate].
      exists b. exact Hab.
  - cbn [substring_of]. rewrite orb_true_iff, prefix_spec, IH. split.
    + intros [(b & Hb) | (a & b & Hab)].
      * exists "", b. exact Hb.
      * exists (String c a), b. cbn. rewrite Hab. reflexivity.
    + intros (a & b & Hab). destruct a as [|x a].
      * left. exists b. exact Hab.
      * right. cbn in Hab. injection Hab as _ Hs. exists a, b. exact Hs.
Qed.

(** Appending "@example.com" neither adds nor removes an occurrence of
    "new". *)
Lemma prefix_new_at_example (s : string) :
  prefix "new" (s ++ "@example.com") = prefix "new" s.
Proof.
  destruct s as [|a [|b [|c s]]]; cbn [append prefix];
    rewrite ?andb_false_r; reflexivity.
Qed.

Lemma substring_new_at_example (s : string) :
  substring_of "new" (s ++ "@example.com") = substring_of "new" s.
Proof.
  induction s as [|c s IH].
  - reflexivity.
  - change (String c s ++ "@example.com")%string
      with (String c (s ++ "@example.com")).
    cbn [substring_of]. rewrite IH.
    change (String c (s ++ "@example.com"))
      with (String c s ++ "@example.com")%string.
    rewrite prefix_new_at_example. reflexivity.
Qed.

Section SimulatedStore.
Context {W : Type} `{Logging W}.
Variable rt : Runtime.
Variable cfg : Config.t.
Hypothesis Hmock : Config.mock cfg = true.

(** X12.  The simulated store finds no record exactly for the addresses of
    the form [a + "new" + b]; for every other address it finds one record,
    with id "rec123" and that address as its Email.  It logs the search and
    changes nothing else. *)
Theorem simulated_lookup_by_substring (address : string) (w : W) :
  ((exists a b, address = (a ++ "new" ++ b)%string) ->
   list_records_matching_email (airtable (make_clients rt cfg)) (PStr address) w
     = (Ok (PList []),
        emit (INFO, "[Airtable] Mock search for {}", [PStr address]) w)) /\
  (~ (exists a b, address = (a ++ "new" ++ b)%string) ->
   list_records_matching_email (airtable (make_clients rt cfg)) (PStr address) w
     = (Ok (PList [PDict [("id", PStr "rec123");
                          ("fields", PDict [("Email", PStr address)])]]),
        emit (INFO, "[Airtable] Mock search for {}", [PStr address]) w)).
Proof.
  rewrite (mock_list_records rt cfg Hmock address w).
  destruct (substring_of "new" address) eqn:Hnew.
  - split; [reflexivity|]. intros Hnot. exfalso. apply Hnot.
    apply substring_of_spec. exact Hnew.
  - split; [|reflexivity]. intros Hsub.
    apply substring_of_spec in Hsub. congruence.
Qed.

(** X13.  The simulated store takes an email that is not text as Python's
    [in] does: [None], a boolean or a number raises TypeError, after the
    search has been logged; a list is searched for the element "new". *)
Theorem simulated_lookup_of_non_text (email : pyval) (w : W) :
  (email = PNone \/ (exists b, email = PBool b) \/ (exists n, email = PInt n) ->
   list_records_matching_email (airtable (make_clients rt cfg)) email w
     = (Raise TypeError, emit (INFO, "[Airtable] Mock search for {}", [email]) w)) /\
  (forall l, email = PList l ->
   fst (list_records_matching_email (airtable (make_clients rt cfg)) email w)
     = Ok (if existsb (is_str "new") l then PList [] else PList [mock_match email])).
Proof.
  cbn [make_clients airtable AirtableClient.client list_records_matching_email].
  unfold AirtableClient.list_records_matching_email, AirtableClient.init;
    cbn [AirtableClient.mock].
  rewrite Hmock. unfold bind, lift, ret, log_info, modify. split.
  - intros [-> | [(b & ->) | (n & ->)]]; reflexivity.
  - intros l ->. cbn [contains]. destruct (existsb (is_str "new") l); reflexivity.
Qed.

(** X14.  In simulated mode the branch is decided by the first name alone: a
    commenter whose lowercased first name contains "new" is created, every
    other commenter (with a first name that is text, or none) is updated on
    "rec123". *)
Theorem simulated_branch_by_first_name (p : items) (f : string) (s : state W) :
  first_name_of p = Some f ->
  let email := PStr (lower rt f ++ "@example.com")%string in
  let after := calls (snd (process_person (PDict p) (make_clients rt cfg) cfg s)) in
  (substring_of "new" (lower rt f) = true ->
   created after = created (calls s) ++ [create_set (mock_profile rt p f) email] /\
   updated after = updated (calls s)) /\
  (substring_of "new" (lower rt f) = false ->
   created after = created (calls s) /\
   updated after
     = updated (calls s) ++ [(PStr "rec123", update_set (mock_profile rt p f) email)]).
Proof.
  intros Hf email after.
  destruct (mock_process_person rt cfg Hmock p f s Hf) as (w' & Hrun).
  subst after email. rewrite Hrun. cbn [snd calls]. unfold mock_calls, mock_email.
  rewrite substring_new_at_example.
  split; intros ->; read_calls; split; reflexivity.
Qed.

(** X15.  The simulated store keeps nothing: a commenter whose email contains
    "new", processed twice in succession, is created twice, with the same
    field-set, and never updated. *)
Theorem simulated_store_creates_again (p : items) (f : string) (s : state W) :
  first_name_of p = Some f ->
  substring_of "new" (mock_email rt f) = true ->
  let twice := process_person (PDict p) (make_clients rt cfg) cfg ;;
               process_person (PDict p) (make_clients rt cfg) cfg in
  let fields := create_set (mock_profile rt p f) (PStr (mock_email rt f)) in
  fst (twice s) = Ok tt /\
  created (calls (snd (twice s))) = created (calls s) ++ [fields; fields] /\
  updated (calls (snd (twice s))) = updated (calls s).
Proof.
  intros Hf Hnew twice fields.
  destruct (mock_process_person rt cfg Hmock p f s Hf) as (w1 & Hfirst).
  destruct (mock_process_person rt cfg Hmock p f
              {| world := w1; calls := calls s ++ mock_calls rt p f |} Hf)
    as (w2 & Hsecond).
  assert (Htwice : twice s =
            (Ok tt, {| world := w2;
                       calls := (calls s ++ mock_calls rt p f) ++ mock_calls rt p f |})).
  { subst twice. unfold bind. rewrite Hfirst. exact Hsecond. }
  rewrite Htwice. cbn [fst snd calls]. unfold mock_calls. rewrite Hnew.
  split; [reflexivity|]. subst fields.
  split; read_calls; rewrite <- ?app_assoc; reflexivity.
Qed.
End SimulatedStore.

(** ** Configuration of the store *)

(** X16.  The table of the store is "Contacts" unless AIRTABLE_TABLE names
    another: the configuration defaults it when the variable is unset, and
    the store client defaults it again when the variable is set to the empty
    string.  The variable plays no part in the choice of mock mode. *)
Theorem airtable_table_defaults (env : Config.environ) :
  AirtableClient.table (AirtableClient.init (Config.load_from_env env))
    = PStr (match env "AIRTABLE_TABLE" with
            | Some name => if name =? "" then "Contacts" else name
            | None => "Contacts"
            end) /\
  forall v,
    Config.mock (Config.load_from_env
                   (fun k => if k =? "AIRTABLE_TABLE" then v else env k))
      = Config.mock (Config.load_from_env env).
Proof.
  split.
  - unfold AirtableClient.init, Config.load_from_env, Config.getenv, py_or, truthy;
      cbn [AirtableClient.table Config.AIRTABLE_TABLE].
    destruct (env "AIRTABLE_TABLE") as [name|]; [|reflexivity].
    destruct (name =? ""); reflexivity.
  - intros v. rewrite !mock_flag. reflexivity.
Qed.

(** ** Instances of the further properties *)

(** Ada against a store that fails on writes: the update raises, and neither
    the outreach tool nor the CRM hears of her. *)
Lemma store_failure_stops_the_record_witness :
  exists w3,
    process_person (PDict ada) (clients_with_store read_only_store) mock_cfg fresh
      = (Raise KeyError,
         {| world := w3;
            calls := calls fresh ++
                     [ Enrich (PDict ada);
                       ListRecordsMatchingEmail (PStr "ada@example.com");
                       store_call (mock_profile ascii_runtime ada "Ada")
                         (PStr "ada@example.com")
                         (PList [mock_match (PStr "ada@example.com")])
                         (PStr "rec123") ] |}) /\
    leads_added
      (calls (snd (process_person (PDict ada) (clients_with_store read_only_store)
                     mock_cfg fresh)))
      = leads_added (calls fresh) /\
    contacts_upserted
      (calls (snd (process_person (PDict ada) (clients_with_store read_only_store)
                     mock_cfg fresh)))
      = contacts_upserted (calls fresh).
Proof.
  eexists.
  eapply (store_failure_stops_the_record (clients_with_store read_only_store) mock_cfg
            (PDict ada) fresh (mock_profile ascii_runtime ada "Ada") _ _ _
            (PStr "ada@example.com") (PList [mock_match (PStr "ada@example.com")])
            (mock_match (PStr "ada@example.com")) (PStr "rec123") KeyError).
  - reflexivity.
  - reflexivity.
  - reflexivity.
  - reflexivity.
  - intros _. split; reflexivity.
  - reflexivity.
Defined.

(** Ada with an outreach tool that fails: she is updated in the store, and
    the CRM is not called. *)
Lemma outreach_failure_skips_the_crm_witness :
  exists w4,
    process_person (PDict ada) clients_with_failing_outreach mock_cfg fresh
      = (Raise KeyError,
         {| world := w4;
            calls := calls fresh ++
                     [ Enrich (PDict ada);
                       ListRecordsMatchingEmail (PStr "ada@example.com");
                       store_call (mock_profile ascii_runtime ada "Ada")
                         (PStr "ada@example.com")
                         (PList [mock_match (PStr "ada@example.com")])
                         (PStr "rec123");
                       AddLead (lead_of (mock_profile ascii_runtime ada "Ada")
                                  (PStr "ada@example.com")) ] |}) /\
    contacts_upserted
      (calls (snd (process_person (PDict ada) clients_with_failing_outreach
                     mock_cfg fresh)))
      = contacts_upserted (calls fresh).
Proof.
  eexists.
  eapply (outreach_failure_skips_the_crm clients_with_failing_outreach mock_cfg
            (PDict ada) fresh (mock_profile ascii_runtime ada "Ada") _ _ _ _
            (PStr "ada@example.com") (PList [mock_match (PStr "ada@example.com")])
            (mock_match (PStr "ada@example.com")) (PStr "rec123") _ KeyError).
  - reflexivity.
  - reflexivity.
  - reflexivity.
  - reflexivity.
  - intros _. split; reflexivity.
  - reflexivity.
  - reflexivity.
Defined.

(** An enrichment that answers with a bare list of addresses. *)
Lemma bare_email_raises_witness :
  process_person (PDict ada)
    (clients_enriching_to (PDict [("email", PList [PStr "ada@example.com"])]))
    mock_cfg fresh
    = (Raise AttributeError,
       {| world := []; calls := calls fresh ++ [Enrich (PDict ada)] |}).
Proof.
  eapply (bare_email_raises
            (clients_enriching_to (PDict [("email", PList [PStr "ada@example.com"])]))
            mock_cfg (PDict ada) fresh [("email", PList [PStr "ada@example.com"])] []
            (PStr "ada@example.com") [] "").
  - reflexivity.
  - left. split; [reflexivity | intros entry; discriminate].
Defined.

(** Ada against a store whose matches have no id. *)
Lemma match_without_id_raises_witness :
  exists w2,
    process_person (PDict ada) (clients_with_store store_without_ids) mock_cfg fresh
      = (Raise KeyError,
         {| world := w2;
            calls := calls fresh ++
                     [ Enrich (PDict ada);
                       ListRecordsMatchingEmail (PStr "ada@example.com") ] |}).
Proof.
  eexists.
  eapply (match_without_id_raises (clients_with_store store_without_ids) mock_cfg
            (PDict ada) fresh (mock_profile ascii_runtime ada "Ada")
            [("fields", PDict [("Email", PStr "ada@example.com")])] _ _
            (PStr "ada@example.com") []).
  - reflexivity.
  - reflexivity.
  - reflexivity.
  - reflexivity.
  - reflexivity.
Defined.

(** A feed of one commenter and no liker. *)
Lemma run_cycle_processes_the_feed_witness :
  exists commenter_calls liker_calls,
    calls (snd (run_cycle
                  (clients_with_feed (feed_returning (PList [PDict grace]) (PList [])))
                  mock_cfg fresh))
      = calls fresh ++ [FetchPostCommenters; Sleep 30] ++ commenter_calls ++
        [FetchPostLikers] ++ liker_calls ++ [TriggerNextPhantom] /\
    enriched_persons commenter_calls = [PDict grace] /\
    enriched_persons liker_calls = [] /\
    forallb is_record_call commenter_calls = true /\
    forallb is_record_call liker_calls = true.
Proof.
  eapply (run_cycle_processes_the_feed
            (clients_with_feed (feed_returning (PList [PDict grace]) (PList [])))
            mock_cfg fresh [PDict grace] []).
  - intros w. eexists. reflexivity.
  - intros w. eexists. reflexivity.
  - intros p Hin s. destruct Hin as [<- | []]. reflexivity.
Defined.

(** A feed whose second commenter has a null first name: Ada is processed,
    the cycle ends on the second commenter, Alan and Grace are never
    reached. *)
Lemma failing_commenter_aborts_the_cycle_witness :
  let clients :=
    clients_with_feed
      (feed_returning (PList [PDict ada; PDict nameless; PDict alan])
         (PList [PDict grace])) in
  fst (run_cycle clients mock_cfg fresh) = Raise AttributeError /\
  exists record_calls,
    calls (snd (run_cycle clients mock_cfg fresh))
      = calls fresh ++ [FetchPostCommenters; Sleep 30] ++ record_calls /\
    enriched_persons record_calls = [PDict ada] ++ [PDict nameless] /\
    forallb is_record_call record_calls = true.
Proof.
  eapply (failing_commenter_aborts_the_cycle
            (clients_with_feed
               (feed_returning (PList [PDict ada; PDict nameless; PDict alan])
                  (PList [PDict grace])))
            mock_cfg fresh [PDict ada] [PDict alan] (PDict nameless) AttributeError).
  - intros w. eexists. reflexivity.
  - intros p Hin s. destruct Hin as [<- | []]. reflexivity.
  - intros s. reflexivity.
Defined.

(** A feed that answers [None]. *)
Lemma feed_without_length_raises_witness :
  run_cycle (clients_with_feed (feed_returning PNone (PList []))) mock_cfg fresh
    = (Raise TypeError,
       {| world :=
            emit (INFO, "Waiting 30 seconds to mimic n8n 'Wait 30s' node", [])
              [(INFO, "=== Run cycle started ===", [])];
          calls := calls fresh ++ [FetchPostCommenters; Sleep 30] |}).
Proof.
  eapply (feed_without_length_raises
            (clients_with_feed (feed_returning PNone (PList []))) mock_cfg fresh PNone).
  - reflexivity.
  - left. reflexivity.
Defined.

(** Ada in real mode. *)
Lemma real_mode_skips_every_record_witness :
  fst (process_person (PDict ada) real_clients real_cfg fresh) = Ok tt /\
  calls (snd (process_person (PDict ada) real_clients real_cfg fresh))
    = [Enrich (PDict ada)].
Proof.
  unfold real_clients.
  rewrite (real_mode_skips_every_record ascii_runtime real_cfg eq_refl (PDict ada) fresh).
  split; reflexivity.
Defined.


Lemma simulated_lookup_by_substring_witness :
  list_records_matching_email (airtable sample_clients) (PStr "renew@example.com") []
    = (Ok (PList []),
       emit (INFO, "[Airtable] Mock search for {}", [PStr "renew@example.com"]) []).
Proof.
  eapply (proj1 (simulated_lookup_by_substring ascii_runtime mock_cfg eq_refl
                   "renew@example.com" [])).
  exists "re", "@example.com". reflexivity.
Defined.

Lemma simulated_lookup_of_non_text_witness :
  list_records_matching_email (airtable sample_clients) (PInt 42) []
    = (Raise TypeError, emit (INFO, "[Airtable] Mock search for {}", [PInt 42]) []).
Proof.
  eapply (proj1 (simulated_lookup_of_non_text ascii_runtime mock_cfg eq_refl
                   (PInt 42) [])).
  right; right. exists 42%Z. reflexivity.
Defined.

Lemma simulated_branch_by_first_name_witness :
  created (calls (snd (process_person (PDict newton) sample_clients mock_cfg fresh)))
    = created (calls fresh) ++
      [create_set (mock_profile ascii_runtime newton "Newton")
         (PStr "newton@example.com")] /\
  updated (calls (snd (process_person (PDict newton) sample_clients mock_cfg fresh)))
    = updated (calls fresh).
Proof.
  eapply (proj1 (simulated_branch_by_first_name ascii_runtime mock_cfg eq_refl
                   newton "Newton" fresh eq_refl)).
  reflexivity.
Defined.

Lemma simulated_store_creates_again_witness :
  let twice := process_person (PDict newton) sample_clients mock_cfg ;;
               process_person (PDict newton) sample_clients mock_cfg in
  let fields := create_set (mock_profile ascii_runtime newton "Newton")
                  (PStr (mock_email ascii_runtime "Newton")) in
  fst (twice fresh) = Ok tt /\
  created (calls (snd (twice fresh))) = created (calls fresh) ++ [fields; fields] /\
  updated (calls (snd (twice fresh))) = updated (calls fresh).
Proof.
  eapply (simulated_store_creates_again ascii_runtime mock_cfg eq_refl
            newton "Newton" fresh).
  - reflexivity.
  - reflexivity.
Defined.

(** A lead offered to the outreach tool in real mode. *)
Lemma real_mode_adapters_report_nothing_witness :
  exists v,
    add_lead (lemlist real_clients) (PDict [("email", PStr "ada@example.com")]) []
      = (Ok v, emit (INFO, not_implemented "[Lemlist]", []) []) /\
    truthy v = false.
Proof.
  destruct (real_mode_adapters_report_nothing ascii_runtime real_cfg eq_refl
              (PDict [("email", PStr "ada@example.com")]) PNone [])
    as (_ & _ & _ & _ & _ & _ & _ & Hlead & _).
  exact Hlead.
Defined.
